(** * apply-green-tint.py: the icon recolouring script

    The script opens [build-resources/icon.png], converts it to RGBA,
    replaces the three colour planes by uniform planes of the colour
    08CB00, keeps the alpha plane, and saves the result twice: over the
    original file and as [icon.ico].

    The script is a straight line of calls into the Pillow imaging
    library.  [Module PIL] models the calls it makes (decoded images, the
    RGBA conversion, [split], [new], [merge], the PNG and ICO writers and
    the reader); the script itself is [main], written in a state and
    exception monad over a world made of the file system and the console.

    Scope of the library model.  Images are of the 8-bit modes [L], [LA],
    [RGB] and [RGBA]; palette, bilevel and wider modes are left out.  A
    file is described by what decoding it yields.  Opening a file fails
    when it is missing or not an image; saving fails when the path cannot
    be opened for writing, and then leaves the file as it was.  The
    samples the icon writer computes when it downscales are not modelled:
    the downscaling is a parameter, [thumbnail].  The icon writer is the
    one of Pillow up to 12.3 (see [ico_frames]); the script pins no
    version of the library. *)

From stdpp Require Import gmap strings list.
From Stdlib Require Import ZArith.

Local Open Scope Z_scope.
Local Open Scope nat_scope.

(** ** Exceptions and results *)

(** The Python exceptions the modelled calls raise. *)
Inductive exn : Type :=
  | FileNotFoundError
  | UnidentifiedImageError
  | PermissionError
  | ValueError.

Inductive result (A : Type) : Type :=
  | Ok (a : A)
  | Raise (e : exn).
Arguments Ok {A} a.
Arguments Raise {A} e.

Definition result_bind {A B} (r : result A) (k : A -> result B) : result B :=
  match r with
  | Ok a => k a
  | Raise e => Raise e
  end.

(** ** The imaging library *)

Module PIL.

(** Image modes: the 8-bit greyscale and truecolour modes, with and
    without an alpha band. *)
Inductive mode : Type := L | LA | RGB | RGBA.

Global Instance mode_eq_dec : EqDecision mode.
Proof. solve_decision. Defined.

(** [getmodebands] *)
Definition getmodebands (m : mode) : nat :=
  match m with
  | L => 1
  | LA => 2
  | RGB => 3
  | RGBA => 4
  end.

(** A band is one 8-bit plane, stored row by row: the sample of pixel
    [(x, y)] of an image of width [w] is at index [y * w + x]. *)
Abbreviation band := (list Z).

(** A decoded image: mode, size [(width, height)], one plane per band,
    and [info['transparency']], the colour key a PNG [tRNS] chunk
    declares for an image that has no alpha band (one value for [L],
    three for [RGB]). *)
Record Image : Type := mkImage {
  im_mode : mode;
  im_size : nat * nat;
  im_bands : list band;
  im_transparency : option (list Z)
}.

Definition width (im : Image) : nat := fst (im_size im).
Definition height (im : Image) : nat := snd (im_size im).
Definition area (im : Image) : nat := width im * height im.

Definition sample_ok (v : Z) : bool := (0 <=? v)%Z && (v <=? 255)%Z.

Definition band_ok (n : nat) (b : band) : bool :=
  (length b =? n) && forallb sample_ok b.

Definition transparency_ok (m : mode) (t : option (list Z)) : bool :=
  match t, m with
  | None, _ => true
  | Some k, L => (length k =? 1) && forallb sample_ok k
  | Some k, RGB => (length k =? 3) && forallb sample_ok k
  | Some _, _ => false
  end.

(** What a decoder hands out: positive dimensions, as many planes as the
    mode has bands, every plane of [width * height] 8-bit samples. *)
Definition valid_image (im : Image) : bool :=
  (0 <? width im) && (0 <? height im)
  && (length (im_bands im) =? getmodebands (im_mode im))
  && forallb (band_ok (area im)) (im_bands im)
  && transparency_ok (im_mode im) (im_transparency im).

(** [im.getpixel((x, y))]: the samples of all bands at one position;
    [None] stands for the [IndexError] outside the image. *)
Definition getpixel (im : Image) (x y : nat) : option (list Z) :=
  if (x <? width im) && (y <? height im)
  then mapM (fun b : band => b !! (y * width im + x)) (im_bands im)
  else None.

(** The alpha plane of an image that has one. *)
Definition alpha_band (im : Image) : option band :=
  match im_mode im with
  | LA => im_bands im !! 1
  | RGBA => im_bands im !! 3
  | _ => None
  end.

(** *** [Image.convert('RGBA')] *)

(** The alpha sample given to a pixel of an image without alpha band:
    opaque, unless the pixel is the colour key. *)
Definition key_alpha (key px : list Z) : Z :=
  if decide (px = key) then 0%Z else 255%Z.

Fixpoint zip3 (r g b : band) : list (list Z) :=
  match r, g, b with
  | x :: r', y :: g', z :: b' => [x; y; z] :: zip3 r' g' b'
  | _, _, _ => []
  end.

(** [im.convert('RGBA')].  An RGBA image is copied.  [L] and [LA] repeat
    the grey plane three times; [LA] keeps its alpha plane.  An image
    without alpha band becomes opaque (255), except that a colour key in
    [info['transparency']] is promoted to alpha: the pixels equal to the
    key get alpha 0, and the key leaves [info]. *)
Definition convert_RGBA (im : Image) : result Image :=
  match im_mode im, im_bands im, im_transparency im with
  | RGBA, _, _ => Ok im
  | LA, [l; a], _ =>
      Ok (mkImage RGBA (im_size im) [l; l; l; a] (im_transparency im))
  | L, [l], None =>
      Ok (mkImage RGBA (im_size im) [l; l; l; (fun _ => 255%Z) <$> l] None)
  | L, [l], Some [k] =>
      Ok (mkImage RGBA (im_size im)
            [l; l; l; (fun v => key_alpha [k] [v]) <$> l] None)
  | RGB, [r; g; b], None =>
      Ok (mkImage RGBA (im_size im) [r; g; b; (fun _ => 255%Z) <$> r] None)
  | RGB, [r; g; b], Some [kr; kg; kb] =>
      Ok (mkImage RGBA (im_size im)
            [r; g; b; key_alpha [kr; kg; kb] <$> zip3 r g b] None)
  | _, _, _ => Raise ValueError
  end.

(** *** [split], [new], [merge] *)

(** [im.split()]: one [L] image per band, each carrying a copy of
    [info]. *)
Definition split (im : Image) : list Image :=
  (fun b => mkImage L (im_size im) [b] (im_transparency im)) <$> im_bands im.

(** [Image.new('L', size, color)]: a uniform plane. *)
Definition Image_new_L (size : nat * nat) (color : Z) : Image :=
  mkImage L size [replicate (fst size * snd size) color] None.

(** [Image.merge(mode, bands)]: [ValueError] on a wrong number of bands,
    on a band that is not of mode [L], and on bands of different sizes.
    The merged image takes its size and its [info] from the first
    band. *)
Definition Image_merge (m : mode) (bands : list Image) : result Image :=
  match bands with
  | [] => Raise ValueError
  | b0 :: _ =>
      if negb (length bands =? getmodebands m) then Raise ValueError
      else if negb (forallb (fun b => bool_decide (im_mode b = L)) bands)
      then Raise ValueError
      else if negb (forallb (fun b => bool_decide (im_size b = im_size b0)) bands)
      then Raise ValueError
      else Ok (mkImage m (im_size b0) (bands ≫= im_bands) (im_transparency b0))
  end.

End PIL.

Import PIL.

(** ** The world: files and console *)

(** A file, by what a reader finds in it: a single raster image (a PNG
    and the like), a Windows icon container with its frames in file
    order, or bytes no decoder identifies. *)
Inductive file : Type :=
  | Raster (im : Image)
  | Ico (frames : list Image)
  | Undecodable.

(** The library calls of a run, in the order they are made. *)
Inductive call : Type :=
  | CallOpen (path : string)
  | CallConvert
  | CallSplit
  | CallNew (color : Z)
  | CallMerge
  | CallSave (path : string)
  | CallPrint (line : string).

(** [files]: the file system; [unwritable]: the paths that cannot be
    opened for writing (read-only or locked files); [stdout]: the lines
    printed so far; [calls]: the calls made so far, oldest first. *)
Record world : Type := World {
  files : gmap string file;
  unwritable : gset string;
  stdout : list string;
  calls : list call
}.

(** State and exception monad: an exception leaves the world as the
    calls before it made it. *)
Definition M (A : Type) : Type := world -> result A * world.

Definition ret {A} (a : A) : M A := fun w => (Ok a, w).

Definition raise {A} (e : exn) : M A := fun w => (Raise e, w).

Definition bind {A B} (m : M A) (k : A -> M B) : M B :=
  fun w =>
    match m w with
    | (Ok a, w') => k a w'
    | (Raise e, w') => (Raise e, w')
    end.

Notation "x <- m ;; k" := (bind m (fun x => k))
  (at level 100, m at next level, right associativity).
Notation "m ;; k" := (bind m (fun _ => k))
  (at level 100, right associativity).

Definition log (c : call) : M unit :=
  fun w => (Ok tt, World (files w) (unwritable w) (stdout w) (calls w ++ [c])).

(** A call that touches nothing but its arguments. *)
Definition pure_call {A} (c : call) (r : result A) : M A :=
  log c ;; fun w => (r, w).

(** ** Reading and writing image files *)

Section Script.

(** [frame = im.copy(); frame.thumbnail(size, LANCZOS)]: the icon writer's
    downscaling of [im] into the box [size].  The resampled samples are
    floating-point filter results; the writer is modelled for any such
    function. *)
Variable thumbnail : Image -> nat * nat -> Image.

(** File formats, chosen by [save] from the extension of the path. *)
Inductive format : Type := PNG | ICO.

Definition ends_with (suffix s : string) : bool :=
  String.prefix (String.rev suffix) (String.rev s).

Definition format_of_path (path : string) : option format :=
  if ends_with ".png" path then Some PNG
  else if ends_with ".ico" path then Some ICO
  else None.

(** The sizes the icon writer stores by default. *)
Definition ico_sizes : list (nat * nat) :=
  [(16, 16); (24, 24); (32, 32); (48, 48); (64, 64); (128, 128); (256, 256)].

(** The frames of the icon written for [im]: one per default size that
    is not larger than the image; the image itself where it has exactly
    that size, a thumbnail otherwise.

    This is the writer of Pillow up to 12.3.  Where at least one default
    size fits in the image, later versions write the same frames.  Where
    none fits (an image narrower or lower than 16 pixels), this writer
    stores no frame; later versions store the image at its own size
    instead, and refuse it when that size exceeds 256 pixels.  The
    properties stated of the icon below are about images that a default
    size fits in. *)
Definition ico_frames (im : Image) : list Image :=
  (fun size => if bool_decide (im_size im = size) then im else thumbnail im size)
  <$> List.filter
        (fun size : nat * nat =>
           negb ((width im <? fst size) || (height im <? snd size)
                 || (256 <? fst size) || (256 <? snd size)))
        ico_sizes.

Definition encode (fmt : format) (im : Image) : file :=
  match fmt with
  | PNG => Raster im
  | ICO => Ico (ico_frames im)
  end.

(** The frame an icon reader loads: the one of greatest area, the
    earliest of them in the file. *)
Fixpoint largest (best : Image) (frames : list Image) : Image :=
  match frames with
  | [] => best
  | f :: frames' =>
      if area best <? area f then largest f frames' else largest best frames'
  end.

Definition decode (f : file) : result Image :=
  match f with
  | Raster im => Ok im
  | Ico [] => Raise UnidentifiedImageError
  | Ico (f0 :: frames) => Ok (largest f0 frames)
  | Undecodable => Raise UnidentifiedImageError
  end.

(** [Image.open(path)] *)
Definition Image_open (path : string) : M Image :=
  log (CallOpen path) ;;
  fun w =>
    match files w !! path with
    | None => (Raise FileNotFoundError, w)
    | Some f => (decode f, w)
    end.

(** [im.convert('RGBA')] *)
Definition convert (im : Image) : M Image :=
  pure_call CallConvert (convert_RGBA im).

(** [Image.new('L', size, color)] *)
Definition Image_new (size : nat * nat) (color : Z) : M Image :=
  pure_call (CallNew color) (Ok (Image_new_L size color)).

(** [Image.merge('RGBA', bands)] *)
Definition merge (bands : list Image) : M Image :=
  pure_call CallMerge (Image_merge RGBA bands).

(** [im.save(path)]: the format comes from the extension ([ValueError]
    for an unknown one); the file is then opened for writing
    ([PermissionError] leaves it as it was) and replaced. *)
Definition save (im : Image) (path : string) : M unit :=
  log (CallSave path) ;;
  match format_of_path path with
  | None => raise ValueError
  | Some fmt =>
      fun w =>
        if decide (path ∈ unwritable w) then (Raise PermissionError, w)
        else (Ok tt,
              World (<[path := encode fmt im]> (files w)) (unwritable w)
                    (stdout w) (calls w))
  end.

(** [print(line)] *)
Definition print (line : string) : M unit :=
  log (CallPrint line) ;;
  fun w =>
    (Ok tt, World (files w) (unwritable w) (stdout w ++ [line]) (calls w)).

(** ** The script *)

Definition icon_path : string :=
  "c:\Users\yonat\repos\timer\build-resources\icon.png".
Definition ico_path : string :=
  "c:\Users\yonat\repos\timer\build-resources\icon.ico".

Definition target_r : Z := 0x08.
Definition target_g : Z := 0xCB.
Definition target_b : Z := 0x00.

Definition png_line : string :=
  "✓ Icon PNG updated with green color (08CB00) - transparency preserved".
Definition ico_line : string := "✓ Icon converted to ICO format".

Definition main : M unit :=
  opened <- Image_open icon_path ;;
  img <- convert opened ;;
  bands <- pure_call CallSplit (Ok (split img)) ;;
  match bands with
  | [r; g; b; a] =>
      new_r <- Image_new (im_size img) target_r ;;
      new_g <- Image_new (im_size img) target_g ;;
      new_b <- Image_new (im_size img) target_b ;;
      result <- merge [new_r; new_g; new_b; a] ;;
      save result icon_path ;;
      print png_line ;;
      save result ico_path ;;
      print ico_line
  | _ => raise ValueError
  end.

End Script.

(** ** Specification vocabulary *)

(** What [Image.open(path)] yields in a world. *)
Definition read (path : string) (w : world) : result Image :=
  fst (Image_open path w).

(** The image the script assembles from a size and an alpha plane. *)
Definition tint (size : nat * nat) (alpha : band) : Image :=
  mkImage RGBA size
    [replicate (fst size * snd size) target_r;
     replicate (fst size * snd size) target_g;
     replicate (fst size * snd size) target_b;
     alpha]
    None.

(** The image the script saves for an opened one: its calls between
    [Image.open] and [save], without the world. *)
Definition recolor (opened : Image) : result Image :=
  result_bind (convert_RGBA opened) (fun img =>
    match split img with
    | [r; g; b; a] =>
        Image_merge RGBA
          [Image_new_L (im_size img) target_r;
           Image_new_L (im_size img) target_g;
           Image_new_L (im_size img) target_b; a]
    | _ => Raise ValueError
    end).

(** The alpha channel of an input image as the script sees it: the
    alpha plane of its RGBA form. *)
Definition alpha_channel (im : Image) : option band :=
  match convert_RGBA im with
  | Ok img => alpha_band img
  | Raise _ => None
  end.

(** The calls of a complete run. *)
Definition program_order : list call :=
  [CallOpen icon_path; CallConvert; CallSplit;
   CallNew target_r; CallNew target_g; CallNew target_b; CallMerge;
   CallSave icon_path; CallPrint png_line;
   CallSave ico_path; CallPrint ico_line].

(** The world after [n] further calls that wrote [fs] and printed
    [out]. *)
Definition after (w : world) (fs : gmap string file) (out : list string)
    (n : nat) : world :=
  World fs (unwritable w) (stdout w ++ out) (calls w ++ take n program_order).

(** A stand-in for the resampling filter: the box filled with the first
    samples of each plane.  It serves where a concrete run needs some
    [thumbnail] and the samples it computes do not matter. *)
Definition crop_thumbnail (im : Image) (size : nat * nat) : Image :=
  mkImage (im_mode im) size
    (take (fst size * snd size) <$> im_bands im) (im_transparency im).

(** The resampling filter never leaves the box it is given. *)
Definition fits_box (thumbnail : Image -> nat * nat -> Image) : Prop :=
  forall im size,
    width (thumbnail im size) <= fst size /\ height (thumbnail im size) <= snd size.

(** ** Sample inputs *)

(** A 2x2 RGBA image: a red, a green, a blue and a white pixel, with
    four different alpha samples. *)
Definition sample_rgba : Image :=
  mkImage RGBA (2, 2)
    [[255; 0; 0; 255]; [0; 255; 0; 255]; [0; 0; 255; 255]; [0; 85; 170; 255]]%Z
    None.

(** The same alpha plane under other colours. *)
Definition sample_rgba_grey : Image :=
  mkImage RGBA (2, 2)
    [[10; 20; 30; 40]; [10; 20; 30; 40]; [10; 20; 30; 40]; [0; 85; 170; 255]]%Z
    None.

(** A 2x1 RGB image without colour key. *)
Definition sample_rgb : Image :=
  mkImage RGB (2, 1) [[255; 1]; [0; 2]; [0; 3]]%Z None.

(** The same image with the colour key (255, 0, 0), as a PNG declares
    it in a [tRNS] chunk: its first pixel is the key. *)
Definition keyed_rgb : Image :=
  mkImage RGB (2, 1) [[255; 1]; [0; 2]; [0; 3]]%Z (Some [255; 0; 0]%Z).

(** A 16x16 RGBA image, uniformly half transparent. *)
Definition sample_icon16 : Image :=
  mkImage RGBA (16, 16)
    [replicate 256 200; replicate 256 100; replicate 256 50;
     replicate 256 128]%Z
    None.

(** A world whose only file is [im], at the icon path, with the paths of
    [locked] not writable. *)
Definition world_of (im : Image) (locked : gset string) : world :=
  World {[ icon_path := Raster im ]} locked [] [].

(** A world without files, and one whose icon path holds no image. *)
Definition empty_world : world := World ∅ ∅ [] [].
Definition garbage_world : world :=
  World {[ icon_path := Undecodable ]} ∅ [] [].

(** A 2x1 greyscale image without alpha plane and without colour key,
    and the same image with the colour key 7: its first pixel is the
    key. *)
Definition sample_grey : Image := mkImage L (2, 1) [[7; 200]%Z] None.
Definition keyed_grey : Image := mkImage L (2, 1) [[7; 200]%Z] (Some [7%Z]).

(** A 40x40 RGBA image, uniformly half transparent: larger than three
    of the icon sizes, and of none of them. *)
Definition sample_icon40 : Image :=
  mkImage RGBA (40, 40)
    [replicate 1600 200; replicate 1600 100; replicate 1600 50;
     replicate 1600 128]%Z
    None.

(** ** Symbolic runs of the script *)

Section Runs.

Variable thumbnail : Image -> nat * nat -> Image.

Lemma format_icon_path : format_of_path icon_path = Some PNG.
Proof. reflexivity. Qed.

Lemma format_ico_path : format_of_path ico_path = Some ICO.
Proof. reflexivity. Qed.

Lemma paths_differ : icon_path ≠ ico_path.
Proof. discriminate. Qed.

Lemma read_lookup path w :
  read path w =
    match files w !! path with
    | None => Raise FileNotFoundError
    | Some f => decode f
    end.
Proof.
  unfold read, Image_open, bind, log. cbn [files].
  destruct (files w !! path); reflexivity.
Qed.

Lemma merge_tint size a t :
  Image_merge RGBA
    [Image_new_L size target_r; Image_new_L size target_g;
     Image_new_L size target_b; mkImage L size [a] t]
  = Ok (tint size a).
Proof.
  unfold Image_merge.
  cbn [length getmodebands Nat.eqb negb forallb im_mode Image_new_L im_size].
  rewrite !bool_decide_eq_true_2 by reflexivity. reflexivity.
Qed.

(** [recolor] in closed form: the converted image must have four planes,
    and the fourth becomes the alpha plane of the tinted image. *)
Lemma recolor_eq opened :
  recolor opened =
    match convert_RGBA opened with
    | Raise e => Raise e
    | Ok img =>
        match im_bands img with
        | [_; _; _; a] => Ok (tint (im_size img) a)
        | _ => Raise ValueError
        end
    end.
Proof.
  unfold recolor, result_bind. destruct (convert_RGBA opened) as [img|e]; [|done].
  unfold split. destruct (im_bands img) as [|r [|g [|b [|a [|x l]]]]]; try done.
  cbn [fmap list_fmap]. apply merge_tint.
Qed.

Ltac step_world :=
  cbn [files unwritable stdout calls encode fst snd].

(** The script, run symbolically: where it stops, what it has written,
    printed and called by then. *)
Lemma main_cases w :
  match read icon_path w with
  | Raise e => main thumbnail w = (Raise e, after w (files w) [] 1)
  | Ok opened =>
      match recolor opened with
      | Raise e =>
          exists n, (n = 2 \/ n = 3) /\
            main thumbnail w = (Raise e, after w (files w) [] n)
      | Ok res =>
          if decide (icon_path ∈ unwritable w)
          then main thumbnail w =
                 (Raise PermissionError, after w (files w) [] 8)
          else if decide (ico_path ∈ unwritable w)
          then main thumbnail w =
                 (Raise PermissionError,
                  after w (<[icon_path := Raster res]> (files w)) [png_line] 10)
          else main thumbnail w =
                 (Ok tt,
                  after w
                    (<[ico_path := Ico (ico_frames thumbnail res)]>
                       (<[icon_path := Raster res]> (files w)))
                    [png_line; ico_line] 11)
      end
  end.
Proof.
  rewrite read_lookup.
  unfold main, bind, Image_open, convert, Image_new, merge, pure_call, bind, log.
  step_world. unfold after.
  destruct (files w !! icon_path) as [f|];
    [|by rewrite app_nil_r].
  destruct (decode f) as [opened|e]; [|by rewrite app_nil_r].
  rewrite recolor_eq.
  destruct (convert_RGBA opened) as [img|e];
    [|exists 2; split; [by left|]; rewrite app_nil_r; step_world;
      by rewrite <- !app_assoc].
  unfold split.
  destruct (im_bands img) as [|r [|g [|b [|a [|x l]]]]]; cbn [fmap list_fmap];
    try (exists 3; split; [by right|]; rewrite app_nil_r; step_world;
         by rewrite <- !app_assoc).
  step_world. rewrite merge_tint.
  unfold save, print, bind, log. rewrite format_icon_path, format_ico_path.
  step_world.
  destruct (decide (icon_path ∈ unwritable w));
    [by rewrite app_nil_r, <- !app_assoc|].
  step_world.
  destruct (decide (ico_path ∈ unwritable w)); step_world;
    by rewrite <- !app_assoc.
Qed.

End Runs.

(** ** Conversion of valid images *)

Lemma valid_image_inv im :
  valid_image im = true ->
  0 < width im /\ 0 < height im /\
  length (im_bands im) = getmodebands (im_mode im) /\
  Forall (fun b : band => length b = area im) (im_bands im) /\
  transparency_ok (im_mode im) (im_transparency im) = true.
Proof.
  unfold valid_image. rewrite !andb_true_iff, !Nat.ltb_lt, Nat.eqb_eq.
  intros [[[[Hw Hh] Hn] Hb] Ht]. repeat split; try assumption.
  rewrite forallb_forall in Hb. apply Forall_forall. intros b Hin.
  apply list_elem_of_In, Hb in Hin. unfold band_ok in Hin.
  apply andb_true_iff in Hin as [Hlen _]. by apply Nat.eqb_eq.
Qed.

Lemma length_zip3 r g b n :
  length r = n -> length g = n -> length b = n -> length (zip3 r g b) = n.
Proof.
  revert g b n. induction r as [|x r IH]; intros [|y g] [|z b] n; simpl;
    intros; subst; try discriminate; try reflexivity.
  f_equal. apply IH; congruence.
Qed.

(** A valid image converts, to an RGBA image of the same size whose
    alpha plane is full; an alpha plane it had is kept. *)
Lemma convert_valid opened :
  valid_image opened = true ->
  exists r g b a,
    convert_RGBA opened = Ok (mkImage RGBA (im_size opened) [r; g; b; a] None)
    /\ length a = area opened
    /\ (forall a', alpha_band opened = Some a' -> a' = a).
Proof.
  intros Hv. apply valid_image_inv in Hv as (_ & _ & Hn & Hb & Ht).
  destruct opened as [m size bands t]. unfold convert_RGBA, alpha_band.
  cbn [im_mode im_size im_bands im_transparency] in *.
  destruct m; cbn [getmodebands] in Hn;
    repeat (destruct bands as [|? bands]; try discriminate Hn);
    repeat match goal with
           | H : Forall _ (_ :: _) |- _ => apply Forall_cons in H as [? H]
           end.
  - destruct t as [k|]; cbn in Ht.
    + apply andb_true_iff in Ht as [Hk _]. apply Nat.eqb_eq in Hk.
      destruct k as [|k0 [|? ?]]; try discriminate Hk.
      eexists _, _, _, _. split; [reflexivity|].
      split; [by rewrite length_fmap|]. discriminate.
    + eexists _, _, _, _. split; [reflexivity|].
      split; [by rewrite length_fmap|]. discriminate.
  - destruct t; [discriminate Ht|].
    eexists _, _, _, _. split; [reflexivity|]. split; [assumption|].
    cbn. congruence.
  - destruct t as [k|]; cbn in Ht.
    + apply andb_true_iff in Ht as [Hk _]. apply Nat.eqb_eq in Hk.
      destruct k as [|kr [|kg [|kb [|? ?]]]]; try discriminate Hk.
      eexists _, _, _, _. split; [reflexivity|].
      split; [rewrite length_fmap; by apply length_zip3|]. discriminate.
    + eexists _, _, _, _. split; [reflexivity|].
      split; [by rewrite length_fmap|]. discriminate.
  - destruct t; [discriminate Ht|].
    eexists _, _, _, _. split; [reflexivity|]. split; [assumption|].
    cbn. congruence.
Qed.

(** The script's image for a valid input: the tint of the input's size
    over the alpha plane of the converted input. *)
Lemma recolor_valid opened :
  valid_image opened = true ->
  exists img a,
    convert_RGBA opened = Ok img
    /\ alpha_band img = Some a
    /\ length a = area opened
    /\ (forall a', alpha_band opened = Some a' -> a' = a)
    /\ recolor opened = Ok (tint (im_size opened) a).
Proof.
  intros Hv. destruct (convert_valid opened Hv) as (r & g & b & a & Hc & Hlen & Ha).
  eexists _, a. split; [exact Hc|]. split; [reflexivity|].
  split; [assumption|]. split; [assumption|].
  rewrite recolor_eq, Hc. reflexivity.
Qed.

(** ** Pixels of the tinted image *)

Lemma pixel_index_lt (w h x y : nat) : x < w -> y < h -> y * w + x < w * h.
Proof. intros. nia. Qed.

Lemma getpixel_four size r g b a t x y :
  getpixel (mkImage RGBA size [r; g; b; a] t) x y =
    if (x <? fst size) && (y <? snd size)
    then
      match r !! (y * fst size + x), g !! (y * fst size + x),
            b !! (y * fst size + x), a !! (y * fst size + x) with
      | Some vr, Some vg, Some vb, Some va => Some [vr; vg; vb; va]
      | _, _, _, _ => None
      end
    else None.
Proof.
  unfold getpixel, width, height. cbn [im_size im_bands].
  destruct ((x <? fst size) && (y <? snd size)); [|reflexivity].
  cbn. destruct (r !! _), (g !! _), (b !! _), (a !! _); reflexivity.
Qed.

(** Inside the image, a pixel of the tint is the target colour over the
    sample of the alpha plane. *)
Lemma getpixel_tint size a x y va :
  x < fst size -> y < snd size ->
  a !! (y * fst size + x) = Some va ->
  getpixel (tint size a) x y = Some [target_r; target_g; target_b; va].
Proof.
  intros Hx Hy Ha. unfold tint. rewrite getpixel_four.
  apply Nat.ltb_lt in Hx as Hx'. apply Nat.ltb_lt in Hy as Hy'.
  rewrite Hx', Hy'. cbn [andb].
  rewrite !lookup_replicate_2 by (by apply pixel_index_lt).
  by rewrite Ha.
Qed.

(** Reading a file back from the world a run leaves. *)
Lemma read_after w fs out n path :
  read path (after w fs out n) =
    match fs !! path with
    | None => Raise FileNotFoundError
    | Some f => decode f
    end.
Proof. apply read_lookup. Qed.

Lemma read_icon_after_both w fs f g out n :
  read icon_path (after w (<[ico_path := g]> (<[icon_path := f]> fs)) out n)
  = decode f.
Proof.
  rewrite read_after, lookup_insert_ne by (symmetry; apply paths_differ).
  by rewrite lookup_insert_eq.
Qed.

Lemma read_ico_after_both w fs f g out n :
  read ico_path (after w (<[ico_path := g]> (<[icon_path := f]> fs)) out n)
  = decode g.
Proof. by rewrite read_after, lookup_insert_eq. Qed.

(** ** The run on a valid, writable input *)

Section ValidRuns.

Variable thumbnail : Image -> nat * nat -> Image.

(** With a decodable input and both paths writable the script runs to
    its end and leaves the recoloured image at both paths. *)
Lemma main_ok w opened res :
  read icon_path w = Ok opened ->
  recolor opened = Ok res ->
  icon_path ∉ unwritable w ->
  ico_path ∉ unwritable w ->
  main thumbnail w =
    (Ok tt,
     after w
       (<[ico_path := Ico (ico_frames thumbnail res)]>
          (<[icon_path := Raster res]> (files w)))
       [png_line; ico_line] 11).
Proof.
  intros Hread Hrec Hw1 Hw2. pose proof (main_cases thumbnail w) as H.
  rewrite Hread, Hrec in H. by rewrite !decide_False in H.
Qed.

(** C1.  For a valid input image at the icon path (both output paths
    writable) the script succeeds, and every pixel of the image it leaves
    at the icon path has R, G, B equal to (8, 203, 0), whatever the
    colours of the input were. *)
Theorem output_rgb_is_target w opened :
  read icon_path w = Ok opened ->
  valid_image opened = true ->
  icon_path ∉ unwritable w ->
  ico_path ∉ unwritable w ->
  exists w' out,
    main thumbnail w = (Ok tt, w')
    /\ read icon_path w' = Ok out
    /\ forall x y, x < width opened -> y < height opened ->
         exists va, getpixel out x y = Some [8; 203; 0; va]%Z.
Proof.
  intros Hread Hv Hw1 Hw2.
  destruct (recolor_valid opened Hv) as (img & a & _ & _ & Hlen & _ & Hrec).
  eexists _, _. split; [exact (main_ok w opened _ Hread Hrec Hw1 Hw2)|].
  split; [by rewrite read_icon_after_both|].
  intros x y Hx Hy.
  destruct (lookup_lt_is_Some_2 a (y * width opened + x)) as [va Hva].
  { rewrite Hlen. by apply pixel_index_lt. }
  exists va. by apply getpixel_tint.
Qed.

(** The alpha channel of a valid input: what [convert] makes of it, and
    what the script keeps. *)
Lemma alpha_channel_valid opened :
  valid_image opened = true ->
  exists r g b a,
    convert_RGBA opened = Ok (mkImage RGBA (im_size opened) [r; g; b; a] None)
    /\ alpha_channel opened = Some a
    /\ length a = area opened
    /\ recolor opened = Ok (tint (im_size opened) a).
Proof.
  intros Hv. destruct (convert_valid opened Hv) as (r & g & b & a & Hc & Hlen & _).
  exists r, g, b, a. split; [exact Hc|].
  unfold alpha_channel. rewrite recolor_eq, Hc. by repeat split.
Qed.

(** An input that has an alpha plane has it as its alpha channel. *)
Lemma alpha_channel_of_alpha_band opened a :
  valid_image opened = true ->
  alpha_band opened = Some a -> alpha_channel opened = Some a.
Proof.
  intros Hv Ha. destruct (convert_valid opened Hv) as (r & g & b & a' & Hc & _ & Hk).
  unfold alpha_channel. rewrite Hc. cbn. f_equal. symmetry. by apply Hk.
Qed.

(** C2.  For a valid input image the script succeeds and the image it
    leaves at the icon path has the width and height of the input and,
    pixel for pixel, the alpha of the input: its alpha plane is the alpha
    channel of the input (the alpha plane itself where the input has
    one), and so is the fourth sample of every pixel.  Only the three
    colour planes are replaced. *)
Theorem output_keeps_size_and_alpha w opened :
  read icon_path w = Ok opened ->
  valid_image opened = true ->
  icon_path ∉ unwritable w ->
  ico_path ∉ unwritable w ->
  exists w' out img,
    main thumbnail w = (Ok tt, w')
    /\ read icon_path w' = Ok out
    /\ convert_RGBA opened = Ok img
    /\ im_mode out = RGBA
    /\ width out = width opened /\ height out = height opened
    /\ alpha_band out = alpha_channel opened
    /\ (forall a, alpha_band opened = Some a -> alpha_band out = Some a)
    /\ (forall x y px, getpixel img x y = Some px ->
          exists px', getpixel out x y = Some px' /\ px' !! 3 = px !! 3).
Proof.
  intros Hread Hv Hw1 Hw2.
  destruct (alpha_channel_valid opened Hv) as (r & g & b & a & Hc & Ha & Hlen & Hrec).
  eexists _, _, _. split; [exact (main_ok w opened _ Hread Hrec Hw1 Hw2)|].
  split; [by rewrite read_icon_after_both|].
  split; [exact Hc|]. split; [reflexivity|]. split; [reflexivity|].
  split; [reflexivity|]. split; [by rewrite Ha|].
  split.
  - intros a' Ha'.
    pose proof (alpha_channel_of_alpha_band _ _ Hv Ha') as Hk.
    rewrite Ha in Hk. by injection Hk as ->.
  - intros x y px. rewrite getpixel_four. cbn [fst snd].
    destruct (x <? (im_size opened).1) eqn:Hx; [|discriminate].
    destruct (y <? (im_size opened).2) eqn:Hy; [|discriminate].
    cbn [andb]. apply Nat.ltb_lt in Hx, Hy.
    destruct (r !! (y * (im_size opened).1 + x)),
      (g !! (y * (im_size opened).1 + x)),
      (b !! (y * (im_size opened).1 + x)),
      (a !! (y * (im_size opened).1 + x)) as [va|] eqn:Hva;
      try discriminate.
    intros [= <-]. eexists. split; [by apply getpixel_tint|]. reflexivity.
Qed.

(** The tinted image is a fixed point of the recolouring. *)
Lemma recolor_tint size a : recolor (tint size a) = Ok (tint size a).
Proof. by rewrite recolor_eq. Qed.

Lemma recolor_is_tint opened res :
  recolor opened = Ok res -> exists size a, res = tint size a.
Proof.
  rewrite recolor_eq. destruct (convert_RGBA opened) as [img|]; [|discriminate].
  destruct (im_bands img) as [|r [|g [|b [|a [|x l]]]]]; try discriminate.
  intros [= <-]. by eexists _, _.
Qed.

Lemma recolor_idempotent opened res :
  recolor opened = Ok res -> recolor res = Ok res.
Proof.
  intros H. apply recolor_is_tint in H as (size & a & ->). apply recolor_tint.
Qed.

(** A run that succeeds had a readable input that recolours, and both
    paths writable. *)
Lemma main_ok_inv w w' :
  main thumbnail w = (Ok tt, w') ->
  exists opened res,
    read icon_path w = Ok opened /\ recolor opened = Ok res
    /\ (icon_path ∉ unwritable w) /\ (ico_path ∉ unwritable w)
    /\ w' = after w
              (<[ico_path := Ico (ico_frames thumbnail res)]>
                 (<[icon_path := Raster res]> (files w)))
              [png_line; ico_line] 11.
Proof.
  intros Hrun. pose proof (main_cases thumbnail w) as H.
  destruct (read icon_path w) as [opened|e] eqn:Hread; [|congruence].
  destruct (recolor opened) as [res|e] eqn:Hrec.
  - destruct (decide (icon_path ∈ unwritable w)); [congruence|].
    destruct (decide (ico_path ∈ unwritable w)); [congruence|].
    exists opened, res. split; [reflexivity|]. split; [assumption|].
    split; [assumption|]. split; [assumption|]. congruence.
  - destruct H as (n & _ & H). congruence.
Qed.

(** C3.  Idempotence: after a run that succeeded, a second run succeeds
    too and leaves every file as the first run left it, so the image at
    the icon path (and the icon) is, pixel for pixel, the prior output. *)
Theorem second_run_keeps_files w w1 :
  main thumbnail w = (Ok tt, w1) ->
  exists w2,
    main thumbnail w1 = (Ok tt, w2)
    /\ files w2 = files w1
    /\ read icon_path w2 = read icon_path w1
    /\ read ico_path w2 = read ico_path w1.
Proof.
  intros Hrun.
  destruct (main_ok_inv w w1 Hrun) as (opened & res & Hread & Hrec & Hw1 & Hw2 & ->).
  eexists. split.
  - apply (main_ok _ res res); [by rewrite read_icon_after_both| |done|done].
    by apply recolor_idempotent with opened.
  - assert (Hfiles :
      <[ico_path := Ico (ico_frames thumbnail res)]>
        (<[icon_path := Raster res]>
           (<[ico_path := Ico (ico_frames thumbnail res)]>
              (<[icon_path := Raster res]> (files w))))
      = <[ico_path := Ico (ico_frames thumbnail res)]>
          (<[icon_path := Raster res]> (files w))).
    { apply map_eq. intros k.
      destruct (decide (k = ico_path)) as [->|Hk1];
        [by rewrite !lookup_insert_eq|].
      rewrite !(lookup_insert_ne _ ico_path) by done.
      destruct (decide (k = icon_path)) as [->|Hk2];
        [by rewrite !lookup_insert_eq|].
      by rewrite !lookup_insert_ne by done. }
    split; [exact Hfiles|].
    rewrite !read_after. cbn [files after]. by rewrite Hfiles.
Qed.

(** C9.  Noninterference of the colours: two valid inputs of the same
    size and the same alpha channel give the same two output files,
    whatever their colour planes hold; the outputs are the tint of the
    size over the alpha channel. *)
Theorem output_depends_on_size_and_alpha w1 w2 opened1 opened2 :
  read icon_path w1 = Ok opened1 ->
  read icon_path w2 = Ok opened2 ->
  valid_image opened1 = true ->
  valid_image opened2 = true ->
  icon_path ∉ unwritable w1 -> ico_path ∉ unwritable w1 ->
  icon_path ∉ unwritable w2 -> ico_path ∉ unwritable w2 ->
  im_size opened1 = im_size opened2 ->
  alpha_channel opened1 = alpha_channel opened2 ->
  exists w1' w2' a,
    main thumbnail w1 = (Ok tt, w1')
    /\ main thumbnail w2 = (Ok tt, w2')
    /\ alpha_channel opened1 = Some a
    /\ files w1' !! icon_path = Some (Raster (tint (im_size opened1) a))
    /\ files w1' !! ico_path
       = Some (Ico (ico_frames thumbnail (tint (im_size opened1) a)))
    /\ files w2' !! icon_path = files w1' !! icon_path
    /\ files w2' !! ico_path = files w1' !! ico_path.
Proof.
  intros Hr1 Hr2 Hv1 Hv2 Hi1 Ho1 Hi2 Ho2 Hsize Halpha.
  destruct (alpha_channel_valid opened1 Hv1) as (? & ? & ? & a1 & _ & Ha1 & _ & Hrec1).
  destruct (alpha_channel_valid opened2 Hv2) as (? & ? & ? & a2 & _ & Ha2 & _ & Hrec2).
  assert (a2 = a1) as -> by congruence. rewrite <- Hsize in Hrec2.
  eexists _, _, a1.
  split; [exact (main_ok w1 opened1 _ Hr1 Hrec1 Hi1 Ho1)|].
  split; [exact (main_ok w2 opened2 _ Hr2 Hrec2 Hi2 Ho2)|].
  split; [exact Ha1|]. cbn [files after].
  rewrite !lookup_insert_eq, !(lookup_insert_ne _ ico_path icon_path)
    by (symmetry; apply paths_differ).
  by rewrite !lookup_insert_eq.
Qed.

(** C10.  The two writes are not atomic as a pair.  When the icon path
    can be written and the [.ico] path cannot, the run ends in the
    [PermissionError] of the second [save], after the first [save] has
    replaced the source file by the recoloured image: that is the only
    change to the file system, so the [.ico] file is as it was and no
    copy of the source exists anywhere. *)
Theorem ico_failure_after_overwrite w opened :
  read icon_path w = Ok opened ->
  valid_image opened = true ->
  icon_path ∉ unwritable w ->
  ico_path ∈ unwritable w ->
  exists w' a,
    main thumbnail w = (Raise PermissionError, w')
    /\ alpha_channel opened = Some a
    /\ files w' = <[icon_path := Raster (tint (im_size opened) a)]> (files w)
    /\ read icon_path w' = Ok (tint (im_size opened) a)
    /\ files w' !! ico_path = files w !! ico_path
    /\ calls w' = calls w ++ take 10 program_order.
Proof.
  intros Hread Hv Hw1 Hw2.
  destruct (alpha_channel_valid opened Hv) as (? & ? & ? & a & _ & Ha & _ & Hrec).
  pose proof (main_cases thumbnail w) as H. rewrite Hread, Hrec in H.
  rewrite decide_False, decide_True in H by assumption.
  eexists _, a. split; [exact H|]. split; [exact Ha|].
  split; [reflexivity|].
  split; [by rewrite read_after, lookup_insert_eq|].
  split; [|reflexivity].
  cbn [files after]. apply lookup_insert_ne, paths_differ.
Qed.

(** C5.  When the icon path holds no file, or a file that is not a
    decodable image, the run fails at [Image.open] with its error
    ([FileNotFoundError] for a missing file, [UnidentifiedImageError]
    otherwise, both [OSError]s), having made no other call: no file is
    written or changed and nothing is printed. *)
Theorem unreadable_input_writes_nothing w e :
  read icon_path w = Raise e ->
  (e = FileNotFoundError \/ e = UnidentifiedImageError)
  /\ (files w !! icon_path = None -> e = FileNotFoundError)
  /\ exists w',
       main thumbnail w = (Raise e, w')
       /\ files w' = files w
       /\ stdout w' = stdout w
       /\ calls w' = calls w ++ [CallOpen icon_path].
Proof.
  intros Hread. split; [|split].
  - rewrite read_lookup in Hread.
    destruct (files w !! icon_path) as [[im|[|f0 frames]|]|];
      cbn in Hread; injection Hread as <- || discriminate; auto.
  - intros Hnone. rewrite read_lookup, Hnone in Hread. congruence.
  - pose proof (main_cases thumbnail w) as H. rewrite Hread in H.
    eexists. split; [exact H|]. split; [reflexivity|].
    split; [apply app_nil_r|reflexivity].
Qed.

(** C7.  Every run performs the operations in the one order of the
    program text, load, recolour, save the raster, save the icon, and
    stops at the first that fails.  The calls of a run are the first [n]
    of [program_order], and files and console are as the calls before
    the failing one left them:
    - a run that succeeds made all eleven calls: it recoloured the image
      it had opened, wrote the result to the icon path and then to the
      [.ico] path, and printed the two lines;
    - when the load fails ([n = 1]) nothing else happened;
    - when the recolouring fails ([2 <= n <= 7]) the image had been
      opened, and no file is written and nothing printed;
    - when the raster save fails ([n = 8]) the image had been opened and
      recoloured, and no file is written and nothing printed: the icon
      save is not attempted;
    - when the icon save fails ([n = 10]) the raster has been written and
      its line printed, and the [.ico] path is untouched. *)
Theorem run_follows_program_order w :
  exists n,
    calls (main thumbnail w).2 = calls w ++ take n program_order
    /\ match (main thumbnail w).1 with
       | Ok _ =>
           n = length program_order
           /\ exists opened res,
                read icon_path w = Ok opened
                /\ recolor opened = Ok res
                /\ files (main thumbnail w).2
                   = <[ico_path := Ico (ico_frames thumbnail res)]>
                       (<[icon_path := Raster res]> (files w))
                /\ stdout (main thumbnail w).2
                   = stdout w ++ [png_line; ico_line]
       | Raise e =>
           (n = 1
            /\ read icon_path w = Raise e
            /\ files (main thumbnail w).2 = files w
            /\ stdout (main thumbnail w).2 = stdout w)
           \/ (2 <= n <= 7
               /\ (exists opened,
                     read icon_path w = Ok opened /\ recolor opened = Raise e)
               /\ files (main thumbnail w).2 = files w
               /\ stdout (main thumbnail w).2 = stdout w)
           \/ (n = 8
               /\ (exists opened res,
                     read icon_path w = Ok opened /\ recolor opened = Ok res)
               /\ files (main thumbnail w).2 = files w
               /\ stdout (main thumbnail w).2 = stdout w)
           \/ (n = 10
               /\ exists opened res,
                    read icon_path w = Ok opened
                    /\ recolor opened = Ok res
                    /\ files (main thumbnail w).2
                       = <[icon_path := Raster res]> (files w)
                    /\ stdout (main thumbnail w).2 = stdout w ++ [png_line])
       end.
Proof.
  pose proof (main_cases thumbnail w) as H.
  destruct (read icon_path w) as [opened|e] eqn:Hread.
  - destruct (recolor opened) as [res|e] eqn:Hrec.
    + destruct (decide (icon_path ∈ unwritable w)).
      * rewrite H. exists 8. cbn [fst snd after calls files stdout].
        split; [reflexivity|]. right. right. left.
        split; [reflexivity|]. split; [by exists opened, res|].
        split; [reflexivity|apply app_nil_r].
      * destruct (decide (ico_path ∈ unwritable w)); rewrite H.
        -- exists 10. cbn [fst snd after calls files stdout].
           split; [reflexivity|]. right. right. right.
           split; [reflexivity|]. by exists opened, res.
        -- exists 11. cbn [fst snd after calls files stdout].
           split; [reflexivity|]. split; [reflexivity|].
           by exists opened, res.
    + destruct H as (n & Hn & H). rewrite H. exists n.
      cbn [fst snd after calls files stdout].
      split; [reflexivity|]. right. left. split; [lia|].
      split; [by exists opened|]. split; [reflexivity|apply app_nil_r].
  - rewrite H. exists 1. cbn [fst snd after calls files stdout].
    split; [reflexivity|]. left. split; [reflexivity|].
    split; [reflexivity|]. split; [reflexivity|apply app_nil_r].
Qed.

(** C8, as the script has it.  A run that succeeds prints exactly the two
    confirmation lines, each right after its [save] (see
    [program_order]).  A run that fails has printed nothing when it
    failed up to the first [save], and exactly the first confirmation
    line when it failed at the second [save]. *)
Theorem confirmation_lines w :
  match main thumbnail w with
  | (Ok _, w') => stdout w' = stdout w ++ [png_line; ico_line]
  | (Raise _, w') =>
      (stdout w' = stdout w
       /\ exists n, n <= 8 /\ calls w' = calls w ++ take n program_order)
      \/ (stdout w' = stdout w ++ [png_line]
          /\ calls w' = calls w ++ take 10 program_order)
  end.
Proof.
  pose proof (main_cases thumbnail w) as H.
  destruct (read icon_path w) as [opened|e].
  - destruct (recolor opened) as [res|e].
    + destruct (decide (icon_path ∈ unwritable w)).
      * rewrite H. left. split; [apply app_nil_r|]. exists 8. by split.
      * destruct (decide (ico_path ∈ unwritable w)); rewrite H.
        -- right. by split.
        -- reflexivity.
    + destruct H as (n & Hn & H). rewrite H. left. split; [apply app_nil_r|].
      exists n. split; [lia|reflexivity].
  - rewrite H. left. split; [apply app_nil_r|]. exists 1. split; [lia|reflexivity].
Qed.

Lemma fmap_const_replicate {A B} (c : B) (l : list A) :
  (fun _ => c) <$> l = replicate (length l) c.
Proof. induction l as [|x l IH]; [reflexivity|]. cbn. by rewrite IH. Qed.

(** An RGB image without colour key converts to a fully opaque one. *)
Lemma alpha_channel_rgb opened :
  valid_image opened = true ->
  im_mode opened = RGB ->
  im_transparency opened = None ->
  alpha_channel opened = Some (replicate (area opened) 255%Z).
Proof.
  intros Hv Hm Ht. apply valid_image_inv in Hv as (_ & _ & Hn & Hb & _).
  unfold alpha_channel, convert_RGBA. rewrite Hm, Ht. rewrite Hm in Hn.
  destruct (im_bands opened) as [|r [|g [|b [|? ?]]]]; try discriminate Hn.
  apply Forall_cons in Hb as [Hr _]. cbn. by rewrite fmap_const_replicate, Hr.
Qed.

(** C4, as the library has it.  For a valid 3-channel (RGB) input that
    carries no transparency colour key, the alpha channel after
    conversion is 255 at every pixel, and so is the alpha of the image
    the script leaves at the icon path. *)
Theorem rgb_without_key_becomes_opaque w opened :
  read icon_path w = Ok opened ->
  valid_image opened = true ->
  im_mode opened = RGB ->
  im_transparency opened = None ->
  icon_path ∉ unwritable w ->
  ico_path ∉ unwritable w ->
  alpha_channel opened = Some (replicate (area opened) 255%Z)
  /\ exists w' out,
       main thumbnail w = (Ok tt, w')
       /\ read icon_path w' = Ok out
       /\ alpha_band out = Some (replicate (area opened) 255%Z)
       /\ forall x y, x < width opened -> y < height opened ->
            getpixel out x y = Some [8; 203; 0; 255]%Z.
Proof.
  intros Hread Hv Hm Ht Hw1 Hw2.
  pose proof (alpha_channel_rgb opened Hv Hm Ht) as Hopaque.
  split; [exact Hopaque|].
  destruct (alpha_channel_valid opened Hv)
    as (r0 & g0 & b0 & a & _ & Ha & _ & Hrec).
  assert (a = replicate (area opened) 255%Z) as -> by congruence.
  eexists _, _. split; [exact (main_ok w opened _ Hread Hrec Hw1 Hw2)|].
  split; [by rewrite read_icon_after_both|]. split; [reflexivity|].
  intros x y Hx Hy. apply getpixel_tint; try assumption.
  apply lookup_replicate_2. by apply pixel_index_lt.
Qed.

(** *** The icon file *)

(** A frame of greater area than every other frame is the one loaded,
    wherever it is in the file. *)
Lemma largest_unique_max x best frames :
  x ∈ best :: frames ->
  Forall (fun f => f = x \/ area f < area x) (best :: frames) ->
  largest best frames = x.
Proof.
  revert best. induction frames as [|f frames IH]; intros best Hin Hall.
  - apply list_elem_of_singleton in Hin. by subst.
  - cbn [largest]. apply Forall_cons in Hall as [Hbest Hall].
    apply Forall_cons in Hall as [Hf Hall].
    destruct (area best <? area f) eqn:Hlt.
    + apply Nat.ltb_lt in Hlt. apply IH.
      * apply elem_of_cons in Hin as [->|Hin]; [|exact Hin].
        destruct Hf as [->|Hf]; [left|lia].
      * by apply Forall_cons.
    + apply Nat.ltb_ge in Hlt. apply IH.
      * apply elem_of_cons in Hin as [->|Hin]; [left|].
        apply elem_of_cons in Hin as [->|Hin]; [|by right].
        destruct Hbest as [->|Hbest]; [left|lia].
      * by apply Forall_cons.
Qed.

Lemma thumbnail_area size :
  fits_box thumbnail -> forall im, area (thumbnail im size) <= fst size * snd size.
Proof.
  intros Hfit im. destruct (Hfit im size) as [Hw Hh]. unfold area.
  by apply Nat.mul_le_mono.
Qed.

(** The icon written for an image that has one of the icon sizes loads
    as that image. *)
Lemma decode_ico_at_icon_size size a :
  fits_box thumbnail ->
  size ∈ ico_sizes ->
  decode (Ico (ico_frames thumbnail (tint size a))) = Ok (tint size a).
Proof.
  intros Hfit Hsize. unfold ico_sizes in Hsize.
  pose proof (fun s => thumbnail_area s Hfit (tint size a)) as Harea.
  repeat (apply elem_of_cons in Hsize as [->|Hsize]);
    [..|by apply elem_of_nil in Hsize];
    unfold ico_frames, width, height; cbn [tint im_size];
    match goal with
    | |- context [List.filter ?f ico_sizes] =>
        let l := eval vm_compute in (List.filter f ico_sizes) in
        change (List.filter f ico_sizes) with l
    end;
    cbn [fmap list_fmap];
    rewrite ?bool_decide_eq_true_2 by reflexivity;
    rewrite ?bool_decide_eq_false_2 by discriminate;
    cbn [decode]; f_equal;
    (reflexivity || (apply largest_unique_max; [set_solver|]));
    repeat (apply Forall_cons; split);
    try apply Forall_nil; try exact I; try (left; reflexivity);
    right;
    match goal with
    | |- area (thumbnail _ ?s) < _ =>
        specialize (Harea s); unfold area at 2, width, height;
        cbn [tint im_size fst snd] in *; lia
    end.
Qed.

(** C6, as the icon writer has it.  For a valid input image whose size
    is one of the icon writer's sizes (16, 24, 32, 48, 64, 128 or 256
    pixels square) the [.ico] file decodes to the very image the raster
    file decodes to.  (The resampling filter is any that keeps its
    results inside the requested box.) *)
Theorem ico_matches_raster_at_icon_sizes w opened :
  fits_box thumbnail ->
  read icon_path w = Ok opened ->
  valid_image opened = true ->
  icon_path ∉ unwritable w ->
  ico_path ∉ unwritable w ->
  im_size opened ∈ ico_sizes ->
  exists w' out,
    main thumbnail w = (Ok tt, w')
    /\ read icon_path w' = Ok out
    /\ read ico_path w' = Ok out.
Proof.
  intros Hfit Hread Hv Hw1 Hw2 Hsize.
  destruct (alpha_channel_valid opened Hv)
    as (r0 & g0 & b0 & a & _ & _ & _ & Hrec).
  eexists _, _. split; [exact (main_ok w opened _ Hread Hrec Hw1 Hw2)|].
  split; [by rewrite read_icon_after_both|].
  rewrite read_ico_after_both. by apply decode_ico_at_icon_size.
Qed.

Lemma largest_elem_of best frames : largest best frames ∈ best :: frames.
Proof.
  revert best. induction frames as [|f frames IH]; intros best;
    [apply list_elem_of_singleton; reflexivity|].
  cbn [largest]. destruct (area best <? area f).
  - right. apply IH.
  - pose proof (IH best) as Hin.
    apply elem_of_cons in Hin as [Heq|Hin]; [rewrite Heq; left|right; by right].
Qed.

(** Every frame of the icon written for [im] is [im] itself, stored for
    its own size, or a thumbnail for a size that fits in [im]. *)
Lemma ico_frames_inv im f :
  f ∈ ico_frames thumbnail im ->
  exists size,
    size ∈ ico_sizes
    /\ fst size <= width im /\ snd size <= height im
    /\ (f = im /\ im_size im = size
        \/ f = thumbnail im size /\ im_size im <> size).
Proof.
  unfold ico_frames. intros Hin. apply list_elem_of_fmap in Hin as (size & -> & Hin).
  apply list_elem_of_In, filter_In in Hin as [Hin Hkeep].
  apply negb_true_iff in Hkeep. rewrite !orb_false_iff, !Nat.ltb_ge in Hkeep.
  destruct Hkeep as [[[Hw Hh] _] _].
  exists size. split; [by apply list_elem_of_In|]. split; [exact Hw|].
  split; [exact Hh|]. case_bool_decide; [left|right]; by split.
Qed.

(** Conversely, for an image that a default size fits in (at least
    16x16), the icon loads as the image it was written for only when the
    image has one of the icon sizes: otherwise the icon holds downscaled
    frames only. *)
Lemma ico_round_trip_only_at_icon_sizes im :
  fits_box thumbnail ->
  16 <= width im -> 16 <= height im ->
  decode (Ico (ico_frames thumbnail im)) = Ok im ->
  im_size im ∈ ico_sizes.
Proof.
  intros Hfit _ _ Hdec.
  destruct (ico_frames thumbnail im) as [|f0 frames] eqn:Hframes;
    [discriminate|].
  cbn in Hdec. injection Hdec as Hdec.
  pose proof (largest_elem_of f0 frames) as Hin.
  rewrite Hdec, <- Hframes in Hin.
  apply ico_frames_inv in Hin as (size & Hsize & Hw & Hh & [[_ Heq]|[Hth Hne]]).
  - by rewrite Heq.
  - destruct (Hfit im size) as [Hw' Hh']. rewrite <- Hth in Hw', Hh'.
    exfalso. apply Hne. unfold width, height in *.
    destruct (im_size im), size. cbn in *. f_equal; lia.
Qed.

End ValidRuns.

(** ** Concrete runs *)

Lemma read_world_of im locked : read icon_path (world_of im locked) = Ok im.
Proof. by rewrite read_lookup; cbn [world_of files]; rewrite lookup_singleton_eq. Qed.

Lemma crop_thumbnail_fits : fits_box crop_thumbnail.
Proof. intros im size. split; reflexivity. Qed.

Lemma icon_path_not_locked : icon_path ∉ ({[ ico_path ]} : gset string).
Proof. apply not_elem_of_singleton, paths_differ. Qed.

(** C1 on the 2x2 sample. *)
Lemma output_rgb_is_target_witness :
  exists w' out,
    main crop_thumbnail (world_of sample_rgba ∅) = (Ok tt, w')
    /\ read icon_path w' = Ok out
    /\ forall x y, x < width sample_rgba -> y < height sample_rgba ->
         exists va, getpixel out x y = Some [8; 203; 0; va]%Z.
Proof.
  apply (output_rgb_is_target crop_thumbnail (world_of sample_rgba ∅) sample_rgba).
  - apply read_world_of.
  - reflexivity.
  - apply not_elem_of_empty.
  - apply not_elem_of_empty.
Defined.

(** C2 on the 2x2 sample. *)
Lemma output_keeps_size_and_alpha_witness :
  exists w' out img,
    main crop_thumbnail (world_of sample_rgba ∅) = (Ok tt, w')
    /\ read icon_path w' = Ok out
    /\ convert_RGBA sample_rgba = Ok img
    /\ im_mode out = RGBA
    /\ width out = width sample_rgba /\ height out = height sample_rgba
    /\ alpha_band out = alpha_channel sample_rgba
    /\ (forall a, alpha_band sample_rgba = Some a -> alpha_band out = Some a)
    /\ (forall x y px, getpixel img x y = Some px ->
          exists px', getpixel out x y = Some px' /\ px' !! 3 = px !! 3).
Proof.
  apply (output_keeps_size_and_alpha crop_thumbnail (world_of sample_rgba ∅)
           sample_rgba).
  - apply read_world_of.
  - reflexivity.
  - apply not_elem_of_empty.
  - apply not_elem_of_empty.
Defined.

(** C3 on the 2x2 sample: the world of the first run is the world the
    second run starts from. *)
Lemma second_run_keeps_files_witness :
  exists w2,
    main crop_thumbnail (main crop_thumbnail (world_of sample_rgba ∅)).2
      = (Ok tt, w2)
    /\ files w2 = files (main crop_thumbnail (world_of sample_rgba ∅)).2
    /\ read icon_path w2
       = read icon_path (main crop_thumbnail (world_of sample_rgba ∅)).2
    /\ read ico_path w2
       = read ico_path (main crop_thumbnail (world_of sample_rgba ∅)).2.
Proof.
  apply (second_run_keeps_files crop_thumbnail (world_of sample_rgba ∅)).
  vm_compute. reflexivity.
Defined.

(** C9 on two 2x2 images that differ in every colour sample and agree on
    the alpha plane. *)
Lemma output_depends_on_size_and_alpha_witness :
  exists w1' w2' a,
    main crop_thumbnail (world_of sample_rgba ∅) = (Ok tt, w1')
    /\ main crop_thumbnail (world_of sample_rgba_grey ∅) = (Ok tt, w2')
    /\ alpha_channel sample_rgba = Some a
    /\ files w1' !! icon_path = Some (Raster (tint (im_size sample_rgba) a))
    /\ files w1' !! ico_path
       = Some (Ico (ico_frames crop_thumbnail (tint (im_size sample_rgba) a)))
    /\ files w2' !! icon_path = files w1' !! icon_path
    /\ files w2' !! ico_path = files w1' !! ico_path.
Proof.
  apply (output_depends_on_size_and_alpha crop_thumbnail
           (world_of sample_rgba ∅) (world_of sample_rgba_grey ∅)
           sample_rgba sample_rgba_grey);
    try apply read_world_of; try apply not_elem_of_empty; reflexivity.
Defined.

(** C10 on the 2x2 sample with the [.ico] path locked. *)
Lemma ico_failure_after_overwrite_witness :
  exists w' a,
    main crop_thumbnail (world_of sample_rgba {[ ico_path ]})
      = (Raise PermissionError, w')
    /\ alpha_channel sample_rgba = Some a
    /\ files w' = <[icon_path := Raster (tint (im_size sample_rgba) a)]>
                    (files (world_of sample_rgba {[ ico_path ]}))
    /\ read icon_path w' = Ok (tint (im_size sample_rgba) a)
    /\ files w' !! ico_path
       = files (world_of sample_rgba {[ ico_path ]}) !! ico_path
    /\ calls w' = calls (world_of sample_rgba {[ ico_path ]})
                  ++ take 10 program_order.
Proof.
  apply (ico_failure_after_overwrite crop_thumbnail
           (world_of sample_rgba {[ ico_path ]}) sample_rgba).
  - apply read_world_of.
  - reflexivity.
  - apply icon_path_not_locked.
  - cbn [world_of unwritable]. apply elem_of_singleton_2. reflexivity.
Defined.

(** C5 on a world without files and on one whose icon path holds bytes
    that are no image. *)
Lemma unreadable_input_writes_nothing_witness :
  ((FileNotFoundError = FileNotFoundError
    \/ FileNotFoundError = UnidentifiedImageError)
   /\ (files empty_world !! icon_path = None
       -> FileNotFoundError = FileNotFoundError)
   /\ exists w',
        main crop_thumbnail empty_world = (Raise FileNotFoundError, w')
        /\ files w' = files empty_world
        /\ stdout w' = stdout empty_world
        /\ calls w' = calls empty_world ++ [CallOpen icon_path])
  /\ exists w',
       main crop_thumbnail garbage_world = (Raise UnidentifiedImageError, w')
       /\ files w' = files garbage_world
       /\ stdout w' = stdout garbage_world
       /\ calls w' = calls garbage_world ++ [CallOpen icon_path].
Proof.
  split.
  - apply (unreadable_input_writes_nothing crop_thumbnail empty_world).
    reflexivity.
  - apply (unreadable_input_writes_nothing crop_thumbnail garbage_world
             UnidentifiedImageError).
    rewrite read_lookup. cbn [garbage_world files].
    by rewrite lookup_singleton_eq.
Defined.

(** C4, amended, on the 2x1 RGB sample without colour key. *)
Lemma rgb_without_key_becomes_opaque_witness :
  alpha_channel sample_rgb = Some (replicate (area sample_rgb) 255%Z)
  /\ exists w' out,
       main crop_thumbnail (world_of sample_rgb ∅) = (Ok tt, w')
       /\ read icon_path w' = Ok out
       /\ alpha_band out = Some (replicate (area sample_rgb) 255%Z)
       /\ forall x y, x < width sample_rgb -> y < height sample_rgb ->
            getpixel out x y = Some [8; 203; 0; 255]%Z.
Proof.
  apply (rgb_without_key_becomes_opaque crop_thumbnail (world_of sample_rgb ∅)
           sample_rgb).
  - apply read_world_of.
  - reflexivity.
  - reflexivity.
  - reflexivity.
  - apply not_elem_of_empty.
  - apply not_elem_of_empty.
Defined.

(** C4 as stated fails on the same image with a colour key: the image is
    a valid 3-channel image without alpha plane, its first pixel is the
    key, and after conversion that pixel has alpha 0; the image the
    script leaves at the icon path has alpha 0 there, with any resampling
    filter. *)
Lemma keyed_rgb_is_not_opaque :
  valid_image keyed_rgb = true
  /\ im_mode keyed_rgb = RGB
  /\ alpha_band keyed_rgb = None
  /\ alpha_channel keyed_rgb = Some [0; 255]%Z
  /\ forall thumbnail : Image -> nat * nat -> Image,
       exists w' out,
         main thumbnail (world_of keyed_rgb ∅) = (Ok tt, w')
         /\ read icon_path w' = Ok out
         /\ alpha_band out = Some [0; 255]%Z
         /\ getpixel out 0 0 = Some [8; 203; 0; 0]%Z.
Proof.
  split; [reflexivity|]. split; [reflexivity|]. split; [reflexivity|].
  split; [reflexivity|]. intros thumbnail. eexists _, _.
  split.
  - apply (main_ok thumbnail (world_of keyed_rgb ∅) keyed_rgb
             (tint (2, 1) [0; 255]%Z)).
    + apply read_world_of.
    + reflexivity.
    + apply not_elem_of_empty.
    + apply not_elem_of_empty.
  - split; [by rewrite read_icon_after_both|]. split; reflexivity.
Qed.

(** C6, amended, on the 16x16 sample. *)
Lemma ico_matches_raster_at_icon_sizes_witness :
  exists w' out,
    main crop_thumbnail (world_of sample_icon16 ∅) = (Ok tt, w')
    /\ read icon_path w' = Ok out
    /\ read ico_path w' = Ok out.
Proof.
  apply (ico_matches_raster_at_icon_sizes crop_thumbnail
           (world_of sample_icon16 ∅) sample_icon16).
  - apply crop_thumbnail_fits.
  - apply read_world_of.
  - vm_compute. reflexivity.
  - apply not_elem_of_empty.
  - apply not_elem_of_empty.
  - apply list_elem_of_here.
Defined.

(** C6 as stated fails on the 40x40 sample.  The icon sizes that fit in
    the image are 16, 24 and 32, none of them its own size, so the icon
    holds three downscaled frames: the raster file decodes to the 40x40
    recoloured image, the [.ico] file to an image of at most 32x32, with
    any resampling filter that keeps its result inside the requested
    box. *)
Lemma ico_of_40x40_is_downscaled :
  valid_image sample_icon40 = true
  /\ forall thumbnail : Image -> nat * nat -> Image,
       fits_box thumbnail ->
       exists w' out f,
         main thumbnail (world_of sample_icon40 ∅) = (Ok tt, w')
         /\ read icon_path w' = Ok out
         /\ im_size out = (40, 40)
         /\ read ico_path w' = Ok f
         /\ width f <= 32 /\ height f <= 32
         /\ f <> out.
Proof.
  split; [vm_compute; reflexivity|]. intros thumbnail Hfit.
  set (res := tint (40, 40) (replicate 1600 128%Z)).
  assert (Hframes :
    ico_frames thumbnail res
    = [thumbnail res (16, 16); thumbnail res (24, 24); thumbnail res (32, 32)]).
  { unfold ico_frames, width, height, res. cbn [tint im_size].
    match goal with
    | |- context [List.filter ?f ico_sizes] =>
        let l := eval vm_compute in (List.filter f ico_sizes) in
        change (List.filter f ico_sizes) with l
    end.
    cbn [fmap list_fmap].
    by rewrite !bool_decide_eq_false_2 by discriminate. }
  pose proof (largest_elem_of (thumbnail res (16, 16))
                [thumbnail res (24, 24); thumbnail res (32, 32)]) as Hin.
  set (f := largest (thumbnail res (16, 16))
              [thumbnail res (24, 24); thumbnail res (32, 32)]) in *.
  assert (Hf : width f <= 32 /\ height f <= 32).
  { rewrite !elem_of_cons, elem_of_nil in Hin.
    destruct Hin as [->|[->|[->|[]]]];
      match goal with
      | |- width (thumbnail _ ?s) <= _ /\ _ =>
          destruct (Hfit res s); cbn [fst snd] in *; lia
      end. }
  exists (after (world_of sample_icon40 ∅)
            (<[ico_path := Ico (ico_frames thumbnail res)]>
               (<[icon_path := Raster res]> (files (world_of sample_icon40 ∅))))
            [png_line; ico_line] 11), res, f.
  split.
  - apply (main_ok thumbnail (world_of sample_icon40 ∅) sample_icon40 res).
    + apply read_world_of.
    + vm_compute. reflexivity.
    + apply not_elem_of_empty.
    + apply not_elem_of_empty.
  - split; [by rewrite read_icon_after_both|]. split; [reflexivity|].
    split; [by rewrite read_ico_after_both, Hframes|].
    split; [apply Hf|]. split; [apply Hf|].
    intros Heq. rewrite Heq in Hf. unfold width, res in Hf. cbn in Hf. lia.
Qed.

(** C8 as stated fails when the [.ico] path is locked: the run fails,
    and the first confirmation line is on the console. *)
Lemma failed_run_has_printed :
  stdout (world_of sample_rgba {[ ico_path ]}) = []
  /\ forall thumbnail : Image -> nat * nat -> Image,
       exists w',
         main thumbnail (world_of sample_rgba {[ ico_path ]})
           = (Raise PermissionError, w')
         /\ stdout w' = [png_line].
Proof.
  split; [reflexivity|]. intros thumbnail.
  pose proof (main_cases thumbnail (world_of sample_rgba {[ ico_path ]})) as H.
  rewrite read_world_of in H.
  change (recolor sample_rgba) with (Ok (tint (2, 2) [0; 85; 170; 255]%Z)) in H.
  cbn [world_of unwritable] in H.
  rewrite decide_False in H by apply icon_path_not_locked.
  rewrite decide_True in H by (by apply elem_of_singleton_2).
  eexists. split; [exact H|]. reflexivity.
Qed.

(** ** Further properties of the script *)

(** *** Validity in detail *)

Lemma valid_image_spec im :
  valid_image im = true <->
  0 < width im /\ 0 < height im
  /\ length (im_bands im) = getmodebands (im_mode im)
  /\ Forall (fun b : band => band_ok (area im) b = true) (im_bands im)
  /\ transparency_ok (im_mode im) (im_transparency im) = true.
Proof.
  unfold valid_image.
  rewrite !andb_true_iff, !Nat.ltb_lt, Nat.eqb_eq, forallb_forall, Forall_forall.
  setoid_rewrite list_elem_of_In. tauto.
Qed.

Lemma sample_ok_key_alpha key px : sample_ok (key_alpha key px) = true.
Proof. unfold key_alpha. by case_decide. Qed.

Lemma band_ok_fmap {A} (f : A -> Z) (l : list A) n :
  length l = n -> (forall x, sample_ok (f x) = true) ->
  band_ok n (f <$> l) = true.
Proof.
  intros Hlen Hf. unfold band_ok. rewrite length_fmap, Hlen, Nat.eqb_refl.
  cbn [andb]. apply forallb_forall. intros v Hin.
  apply list_elem_of_In, list_elem_of_fmap in Hin as (x & -> & _). apply Hf.
Qed.

Lemma band_ok_length n b : band_ok n b = true -> length b = n.
Proof.
  unfold band_ok. intros H. apply andb_true_iff in H as [H _].
  by apply Nat.eqb_eq.
Qed.

Lemma band_ok_replicate n c :
  sample_ok c = true -> band_ok n (replicate n c) = true.
Proof.
  intros Hc. unfold band_ok. rewrite length_replicate, Nat.eqb_refl.
  cbn [andb]. apply forallb_forall. intros v Hin.
  apply list_elem_of_In, elem_of_replicate in Hin as [-> _]. exact Hc.
Qed.

(** The RGBA form of a valid image has four well-formed planes. *)
Lemma convert_keeps_valid opened :
  valid_image opened = true ->
  exists r g b a,
    convert_RGBA opened = Ok (mkImage RGBA (im_size opened) [r; g; b; a] None)
    /\ band_ok (area opened) r = true /\ band_ok (area opened) g = true
    /\ band_ok (area opened) b = true /\ band_ok (area opened) a = true.
Proof.
  intros Hv. apply valid_image_spec in Hv as (_ & _ & Hn & Hb & Ht).
  destruct opened as [m size bands t]. unfold convert_RGBA.
  cbn [im_mode im_size im_bands im_transparency] in *.
  destruct m; cbn [getmodebands] in Hn;
    repeat (destruct bands as [|? bands]; try discriminate Hn);
    repeat match goal with
           | H : Forall _ (_ :: _) |- _ => apply Forall_cons in H as [? H]
           end.
  - destruct t as [k|]; cbn in Ht.
    + apply andb_true_iff in Ht as [Hk _]. apply Nat.eqb_eq in Hk.
      destruct k as [|k0 [|? ?]]; try discriminate Hk.
      eexists _, _, _, _. split; [reflexivity|]. repeat split; try assumption.
      apply band_ok_fmap; [by apply band_ok_length|].
      intros v. apply sample_ok_key_alpha.
    + eexists _, _, _, _. split; [reflexivity|]. repeat split; try assumption.
      apply band_ok_fmap; [by apply band_ok_length|]. reflexivity.
  - destruct t; [discriminate Ht|].
    eexists _, _, _, _. split; [reflexivity|]. by repeat split.
  - destruct t as [k|]; cbn in Ht.
    + apply andb_true_iff in Ht as [Hk _]. apply Nat.eqb_eq in Hk.
      destruct k as [|kr [|kg [|kb [|? ?]]]]; try discriminate Hk.
      eexists _, _, _, _. split; [reflexivity|]. repeat split; try assumption.
      apply band_ok_fmap; [|intros v; apply sample_ok_key_alpha].
      apply length_zip3; by apply band_ok_length.
    + eexists _, _, _, _. split; [reflexivity|]. repeat split; try assumption.
      apply band_ok_fmap; [by apply band_ok_length|]. reflexivity.
  - destruct t; [discriminate Ht|].
    eexists _, _, _, _. split; [reflexivity|]. by repeat split.
Qed.

Lemma tint_valid size a :
  0 < fst size -> 0 < snd size ->
  band_ok (fst size * snd size) a = true ->
  valid_image (tint size a) = true.
Proof.
  intros Hw Hh Ha. apply valid_image_spec. unfold area, width, height.
  cbn [tint im_size im_bands im_mode im_transparency getmodebands].
  split; [exact Hw|]. split; [exact Hh|]. split; [reflexivity|].
  split; [|reflexivity].
  repeat (apply Forall_cons; split); try exact Ha;
    try (by apply band_ok_replicate). apply Forall_nil. exact I.
Qed.

Section Outcomes.

Variable thumbnail : Image -> nat * nat -> Image.

(** X1.  On a valid input the recolouring cannot fail, and the raster
    is saved before anything is done about the icon: whenever the icon
    path can be written, the run leaves the recoloured image there, the
    tint of the input's size over its alpha channel, whether the run then
    succeeds or fails at a later step. *)
Theorem raster_is_written_whatever_follows w opened :
  read icon_path w = Ok opened ->
  valid_image opened = true ->
  icon_path ∉ unwritable w ->
  exists a,
    alpha_channel opened = Some a
    /\ files (main thumbnail w).2 !! icon_path
       = Some (Raster (tint (im_size opened) a)).
Proof.
  intros Hread Hv Hw1.
  destruct (alpha_channel_valid opened Hv) as (r & g & b & a & _ & Ha & _ & Hrec).
  exists a. split; [exact Ha|].
  pose proof (main_cases thumbnail w) as H. rewrite Hread, Hrec in H.
  rewrite decide_False in H by assumption.
  destruct (decide (ico_path ∈ unwritable w)); rewrite H; cbn [snd after files].
  - apply lookup_insert_eq.
  - rewrite lookup_insert_ne by (symmetry; apply paths_differ).
    apply lookup_insert_eq.
Qed.

(** X2.  When the icon path cannot be written the run ends in the
    [PermissionError] of the first [save]: no file is changed, nothing is
    printed, and the [.ico] is never attempted, whether its path could be
    written or not. *)
Theorem raster_failure_writes_nothing w opened :
  read icon_path w = Ok opened ->
  valid_image opened = true ->
  icon_path ∈ unwritable w ->
  exists w',
    main thumbnail w = (Raise PermissionError, w')
    /\ files w' = files w
    /\ stdout w' = stdout w
    /\ calls w' = calls w ++ take 8 program_order
    /\ CallSave ico_path ∉ take 8 program_order.
Proof.
  intros Hread Hv Hlocked.
  destruct (alpha_channel_valid opened Hv) as (r & g & b & a & _ & _ & _ & Hrec).
  pose proof (main_cases thumbnail w) as H. rewrite Hread, Hrec in H.
  rewrite decide_True in H by assumption.
  eexists. split; [exact H|]. split; [reflexivity|].
  split; [apply app_nil_r|]. split; [reflexivity|].
  cbn. rewrite !elem_of_cons, elem_of_nil.
  intros Hin. repeat destruct Hin as [Hin|Hin]; try discriminate Hin; done.
Qed.

(** The file system after any run: the initial one, with the icon path
    replaced, or the icon path and the [.ico] path. *)
Lemma files_after_run w :
  files (main thumbnail w).2 = files w
  \/ ((icon_path ∉ unwritable w)
      /\ exists f, files (main thumbnail w).2 = <[icon_path := f]> (files w))
  \/ ((icon_path ∉ unwritable w) /\ (ico_path ∉ unwritable w)
      /\ exists f g,
           files (main thumbnail w).2
           = <[ico_path := g]> (<[icon_path := f]> (files w))).
Proof.
  pose proof (main_cases thumbnail w) as H.
  destruct (read icon_path w) as [opened|e]; [|rewrite H; by left].
  destruct (recolor opened) as [res|e];
    [|destruct H as (n & _ & H); rewrite H; by left].
  destruct (decide (icon_path ∈ unwritable w)); [rewrite H; by left|].
  destruct (decide (ico_path ∈ unwritable w)); rewrite H.
  - right. left. split; [assumption|]. by eexists.
  - right. right. split; [assumption|]. split; [assumption|]. by eexists _, _.
Qed.

(** X3.  No run, successful or not, touches a file other than the two
    of the script, removes a file, or changes which paths are
    writable. *)
Theorem other_files_untouched w :
  unwritable (main thumbnail w).2 = unwritable w
  /\ dom (files w) ⊆ dom (files (main thumbnail w).2)
  /\ forall p, p ≠ icon_path -> p ≠ ico_path ->
       files (main thumbnail w).2 !! p = files w !! p.
Proof.
  split; [|split].
  - pose proof (main_cases thumbnail w) as H.
    destruct (read icon_path w) as [opened|e]; [|by rewrite H].
    destruct (recolor opened) as [res|e];
      [|destruct H as (n & _ & H); by rewrite H].
    destruct (decide (icon_path ∈ unwritable w)); [by rewrite H|].
    destruct (decide (ico_path ∈ unwritable w)); by rewrite H.
  - destruct (files_after_run w) as [->|[(_ & f & ->)|(_ & _ & f & g & ->)]].
    + reflexivity.
    + rewrite dom_insert_L. set_solver.
    + rewrite !dom_insert_L. set_solver.
  - intros p Hp1 Hp2.
    destruct (files_after_run w) as [->|[(_ & f & ->)|(_ & _ & f & g & ->)]].
    + reflexivity.
    + by rewrite lookup_insert_ne.
    + by rewrite !lookup_insert_ne.
Qed.

(** X4.  A file at a path that cannot be written is never changed by a
    run, at the script's own two paths included. *)
Theorem locked_files_keep_their_content w p :
  p ∈ unwritable w ->
  files (main thumbnail w).2 !! p = files w !! p.
Proof.
  intros Hp.
  destruct (files_after_run w) as [->|[(Hi & f & ->)|(Hi & Ho & f & g & ->)]].
  - reflexivity.
  - rewrite lookup_insert_ne; [reflexivity|]. intros Heq. by subst p.
  - rewrite !lookup_insert_ne; [reflexivity| |]; intros Heq; by subst p.
Qed.

End Outcomes.

(** *** Pixels of the output *)

Lemma zip3_lookup r g b i vr vg vb :
  r !! i = Some vr -> g !! i = Some vg -> b !! i = Some vb ->
  zip3 r g b !! i = Some [vr; vg; vb].
Proof.
  revert g b i. induction r as [|x r IH]; intros [|y g] [|z b] [|i];
    cbn; try discriminate.
  - by intros [= ->] [= ->] [= ->].
  - apply IH.
Qed.

(** A pixel read from an image of one plane, and of three. *)
Lemma getpixel_one m size l t x y :
  getpixel (mkImage m size [l] t) x y =
    if (x <? fst size) && (y <? snd size)
    then (fun v => [v]) <$> l !! (y * fst size + x)
    else None.
Proof.
  unfold getpixel, width, height. cbn [im_size im_bands].
  destruct ((x <? fst size) && (y <? snd size)); [|reflexivity].
  cbn. by destruct (l !! _).
Qed.

Lemma getpixel_three m size r g b t x y :
  getpixel (mkImage m size [r; g; b] t) x y =
    if (x <? fst size) && (y <? snd size)
    then
      match r !! (y * fst size + x), g !! (y * fst size + x),
            b !! (y * fst size + x) with
      | Some vr, Some vg, Some vb => Some [vr; vg; vb]
      | _, _, _ => None
      end
    else None.
Proof.
  unfold getpixel, width, height. cbn [im_size im_bands].
  destruct ((x <? fst size) && (y <? snd size)); [|reflexivity].
  cbn. destruct (r !! _), (g !! _), (b !! _); reflexivity.
Qed.

Lemma getpixel_tint_outside size a x y :
  (x <? fst size) && (y <? snd size) = false ->
  getpixel (tint size a) x y = None.
Proof. intros H. unfold tint. by rewrite getpixel_four, H. Qed.

Section Pixels.

Variable thumbnail : Image -> nat * nat -> Image.

(** X5.  The image written for a valid input is itself a valid image:
    mode RGBA, the size of the input, four full planes of 8-bit samples,
    and no colour key left in [info], whatever the mode of the input. *)
Theorem output_is_valid_rgba w opened :
  read icon_path w = Ok opened ->
  valid_image opened = true ->
  icon_path ∉ unwritable w ->
  ico_path ∉ unwritable w ->
  exists w' out,
    main thumbnail w = (Ok tt, w')
    /\ read icon_path w' = Ok out
    /\ valid_image out = true
    /\ im_mode out = RGBA
    /\ im_size out = im_size opened
    /\ im_transparency out = None.
Proof.
  intros Hread Hv Hw1 Hw2.
  destruct (convert_keeps_valid opened Hv)
    as (r & g & b & a & Hc & _ & _ & _ & Ha).
  assert (Hrec : recolor opened = Ok (tint (im_size opened) a))
    by (by rewrite recolor_eq, Hc).
  apply valid_image_spec in Hv as (Hw & Hh & _).
  eexists _, _. split; [exact (main_ok thumbnail w opened _ Hread Hrec Hw1 Hw2)|].
  split; [by rewrite read_icon_after_both|].
  split; [by apply tint_valid|]. by repeat split.
Qed.

(** X6.  Pixel by pixel, the output is the target colour over the alpha
    of the converted input: where the RGBA form of the input has the
    pixel [r, g, b, a] the output has [8, 203, 0, a], fully transparent
    pixels included, and outside the image neither has a pixel. *)
Theorem output_pixels w opened img :
  read icon_path w = Ok opened ->
  valid_image opened = true ->
  convert_RGBA opened = Ok img ->
  icon_path ∉ unwritable w ->
  ico_path ∉ unwritable w ->
  exists w' out,
    main thumbnail w = (Ok tt, w')
    /\ read icon_path w' = Ok out
    /\ forall x y,
         getpixel out x y
         = (fun px => [8; 203; 0]%Z ++ drop 3 px) <$> getpixel img x y.
Proof.
  intros Hread Hv Hconv Hw1 Hw2.
  destruct (convert_keeps_valid opened Hv)
    as (r & g & b & a & Hc & Hr & Hg & Hb & Ha).
  assert (Hrec : recolor opened = Ok (tint (im_size opened) a))
    by (by rewrite recolor_eq, Hc).
  rewrite Hc in Hconv. injection Hconv as <-.
  apply band_ok_length in Hr, Hg, Hb, Ha.
  eexists _, _. split; [exact (main_ok thumbnail w opened _ Hread Hrec Hw1 Hw2)|].
  split; [by rewrite read_icon_after_both|].
  intros x y. rewrite getpixel_four. cbn [fst snd].
  destruct ((x <? (im_size opened).1) && (y <? (im_size opened).2)) eqn:Hin;
    [|by rewrite getpixel_tint_outside].
  apply andb_true_iff in Hin as [Hx Hy]. apply Nat.ltb_lt in Hx, Hy.
  assert (Hi : y * (im_size opened).1 + x < area opened)
    by (by apply pixel_index_lt).
  destruct (lookup_lt_is_Some_2 r (y * (im_size opened).1 + x)) as [vr ->];
    [by rewrite Hr|].
  destruct (lookup_lt_is_Some_2 g (y * (im_size opened).1 + x)) as [vg ->];
    [by rewrite Hg|].
  destruct (lookup_lt_is_Some_2 b (y * (im_size opened).1 + x)) as [vb ->];
    [by rewrite Hb|].
  destruct (lookup_lt_is_Some_2 a (y * (im_size opened).1 + x)) as [va Hva];
    [by rewrite Ha|].
  rewrite Hva. by apply getpixel_tint.
Qed.

(** X7.  A colour key of the input becomes the transparency of the
    output.  For a valid input that declares a colour key (a greyscale or
    RGB image), the output pixel is the target colour with alpha 0 where
    the input pixel is the key and alpha 255 everywhere else. *)
Theorem colour_key_becomes_transparency w opened key :
  read icon_path w = Ok opened ->
  valid_image opened = true ->
  im_transparency opened = Some key ->
  icon_path ∉ unwritable w ->
  ico_path ∉ unwritable w ->
  exists w' out,
    main thumbnail w = (Ok tt, w')
    /\ read icon_path w' = Ok out
    /\ forall x y px,
         getpixel opened x y = Some px ->
         getpixel out x y
         = Some [8; 203; 0; if decide (px = key) then 0 else 255]%Z.
Proof.
  intros Hread Hv Hkey Hw1 Hw2.
  apply valid_image_spec in Hv as (_ & _ & Hn & _ & Ht).
  destruct opened as [m size bands t].
  cbn [im_mode im_size im_bands im_transparency] in *. subst t.
  destruct m; cbn [getmodebands] in Hn; cbn in Ht; try discriminate Ht;
    repeat (destruct bands as [|? bands]; try discriminate Hn);
    apply andb_true_iff in Ht as [Hk _]; apply Nat.eqb_eq in Hk.
  - destruct key as [|k [|? ?]]; try discriminate Hk.
    eexists _, _.
    split;
      [eapply main_ok;
         [exact Hread|rewrite recolor_eq; reflexivity|done|done]|].
    split; [by rewrite read_icon_after_both|].
    intros x y px. rewrite getpixel_one. cbn [im_size].
    destruct (x <? size.1) eqn:Hx; [|discriminate].
    destruct (y <? size.2) eqn:Hy; [|discriminate]. cbn [andb].
    apply Nat.ltb_lt in Hx, Hy.
    destruct (l !! (y * size.1 + x)) as [v|] eqn:Hl; [|discriminate].
    intros [= <-]. apply getpixel_tint; try assumption.
    by rewrite list_lookup_fmap, Hl.
  - destruct key as [|kr [|kg [|kb [|? ?]]]]; try discriminate Hk.
    eexists _, _.
    split;
      [eapply main_ok;
         [exact Hread|rewrite recolor_eq; reflexivity|done|done]|].
    split; [by rewrite read_icon_after_both|].
    intros x y px. rewrite getpixel_three. cbn [im_size].
    destruct (x <? size.1) eqn:Hx; [|discriminate].
    destruct (y <? size.2) eqn:Hy; [|discriminate]. cbn [andb].
    apply Nat.ltb_lt in Hx, Hy.
    destruct (l !! (y * size.1 + x)) as [vr|] eqn:Hr; [|discriminate].
    destruct (l0 !! (y * size.1 + x)) as [vg|] eqn:Hg; [|discriminate].
    destruct (l1 !! (y * size.1 + x)) as [vb|] eqn:Hb; [|discriminate].
    intros [= <-]. apply getpixel_tint; try assumption.
    by rewrite list_lookup_fmap, (zip3_lookup _ _ _ _ vr vg vb).
Qed.

(** X8.  An input without alpha plane and without colour key, greyscale
    or RGB, comes out fully opaque: every pixel of the output is
    [8, 203, 0, 255]. *)
Theorem no_alpha_no_key_becomes_opaque w opened :
  read icon_path w = Ok opened ->
  valid_image opened = true ->
  alpha_band opened = None ->
  im_transparency opened = None ->
  icon_path ∉ unwritable w ->
  ico_path ∉ unwritable w ->
  exists w' out,
    main thumbnail w = (Ok tt, w')
    /\ read icon_path w' = Ok out
    /\ alpha_band out = Some (replicate (area opened) 255%Z)
    /\ forall x y, x < width opened -> y < height opened ->
         getpixel out x y = Some [8; 203; 0; 255]%Z.
Proof.
  intros Hread Hv Halpha Hkey Hw1 Hw2.
  assert (Ha : alpha_channel opened = Some (replicate (area opened) 255%Z)).
  { apply valid_image_inv in Hv as (_ & _ & Hn & Hb & _).
    unfold alpha_channel, convert_RGBA. unfold alpha_band in Halpha.
    rewrite Hkey.
    destruct (im_mode opened); cbn [getmodebands] in Hn;
      destruct (im_bands opened) as [|l0 [|l1 [|l2 [|l3 [|? ?]]]]];
      try discriminate Hn; try discriminate Halpha;
      apply Forall_cons in Hb as [Hl _]; cbn;
      by rewrite fmap_const_replicate, Hl. }
  destruct (alpha_channel_valid opened Hv)
    as (r0 & g0 & b0 & a & _ & Ha' & _ & Hrec).
  assert (a = replicate (area opened) 255%Z) as -> by congruence.
  eexists _, _. split; [exact (main_ok thumbnail w opened _ Hread Hrec Hw1 Hw2)|].
  split; [by rewrite read_icon_after_both|]. split; [reflexivity|].
  intros x y Hx Hy. apply getpixel_tint; try assumption.
  apply lookup_replicate_2. by apply pixel_index_lt.
Qed.

End Pixels.

(** *** The icon file, and running again *)

Lemma ico_sizes_bound size :
  size ∈ ico_sizes -> 16 <= fst size <= 256 /\ 16 <= snd size <= 256.
Proof.
  unfold ico_sizes. intros Hin.
  repeat (apply elem_of_cons in Hin as [->|Hin]); [..|by apply elem_of_nil in Hin];
    cbn; lia.
Qed.

Section IconFile.

Variable thumbnail : Image -> nat * nat -> Image.

(** The world a successful run on a valid input leaves. *)
Lemma main_ok_valid_inv w w' opened :
  read icon_path w = Ok opened ->
  valid_image opened = true ->
  main thumbnail w = (Ok tt, w') ->
  exists a,
    alpha_channel opened = Some a
    /\ w' = after w
              (<[ico_path := Ico (ico_frames thumbnail (tint (im_size opened) a))]>
                 (<[icon_path := Raster (tint (im_size opened) a)]> (files w)))
              [png_line; ico_line] 11.
Proof.
  intros Hread Hv Hrun.
  destruct (alpha_channel_valid opened Hv) as (r & g & b & a & _ & Ha & _ & Hrec).
  destruct (main_ok_inv thumbnail w w' Hrun)
    as (opened' & res & Hread' & Hrec' & _ & _ & ->).
  assert (opened' = opened) as -> by congruence.
  assert (res = tint (im_size opened) a) as -> by congruence.
  by exists a.
Qed.

(** Every frame of a written icon is at most 256 pixels wide and high,
    and no larger than the image it was written for. *)
Lemma ico_frames_bounds im f :
  fits_box thumbnail ->
  f ∈ ico_frames thumbnail im ->
  width f <= 256 /\ height f <= 256
  /\ width f <= width im /\ height f <= height im.
Proof.
  intros Hfit Hin.
  apply ico_frames_inv in Hin as (size & Hsize & Hw & Hh & Hf).
  apply ico_sizes_bound in Hsize as [Hs1 Hs2].
  destruct Hf as [[-> Heq]|[-> _]].
  - unfold width, height in *. rewrite Heq in *. lia.
  - destruct (Hfit im size). lia.
Qed.

(** X9.  For a valid input of at least 16x16 pixels, so that a default
    icon size fits in it, the [.ico] decodes to the image of the raster
    file only if the input has an icon size: when a run leaves an icon
    that loads as the very image the raster file holds, the input is 16,
    24, 32, 48, 64, 128 or 256 pixels square.  (For any resampling filter
    that keeps its result inside the requested box.) *)
Theorem ico_round_trip_needs_icon_size w w' opened out :
  fits_box thumbnail ->
  read icon_path w = Ok opened ->
  valid_image opened = true ->
  16 <= width opened ->
  16 <= height opened ->
  main thumbnail w = (Ok tt, w') ->
  read icon_path w' = Ok out ->
  read ico_path w' = Ok out ->
  im_size opened ∈ ico_sizes.
Proof.
  intros Hfit Hread Hv Hw16 Hh16 Hrun Hraster Hico.
  destruct (main_ok_valid_inv w w' opened Hread Hv Hrun) as (a & _ & ->).
  rewrite read_icon_after_both in Hraster. injection Hraster as <-.
  rewrite read_ico_after_both in Hico.
  by apply (ico_round_trip_only_at_icon_sizes thumbnail) in Hico.
Qed.

(** X11.  Whatever the size of a valid input, the image an icon written
    by a run loads as is at most 256x256 and no larger than the input:
    an input larger than 256 pixels comes back from its icon only
    downscaled.  (For any resampling filter that keeps its result inside
    the requested box.) *)
Theorem ico_is_never_larger w w' opened f :
  fits_box thumbnail ->
  read icon_path w = Ok opened ->
  valid_image opened = true ->
  main thumbnail w = (Ok tt, w') ->
  read ico_path w' = Ok f ->
  width f <= 256 /\ height f <= 256
  /\ width f <= width opened /\ height f <= height opened.
Proof.
  intros Hfit Hread Hv Hrun Hico.
  destruct (main_ok_valid_inv w w' opened Hread Hv Hrun) as (a & _ & ->).
  rewrite read_ico_after_both in Hico.
  destruct (ico_frames thumbnail (tint (im_size opened) a)) as [|f0 frames] eqn:E;
    [discriminate|].
  cbn in Hico. injection Hico as <-.
  pose proof (largest_elem_of f0 frames) as Hin. rewrite <- E in Hin.
  by apply ico_frames_bounds in Hin.
Qed.

(** X12.  A run that failed at the [.ico] can simply be repeated.  The
    source file is overwritten by then, but the recoloured image keeps
    the alpha of the source, so a later run on the files the failed run
    left, with both paths writable, succeeds and leaves exactly the files
    a first run without failure would have left. *)
Theorem rerun_completes_after_ico_failure w w1 v opened :
  read icon_path w = Ok opened ->
  valid_image opened = true ->
  icon_path ∉ unwritable w ->
  ico_path ∈ unwritable w ->
  main thumbnail w = (Raise PermissionError, w1) ->
  files v = files w1 ->
  icon_path ∉ unwritable v ->
  ico_path ∉ unwritable v ->
  exists v' a,
    main thumbnail v = (Ok tt, v')
    /\ alpha_channel opened = Some a
    /\ files v'
       = <[ico_path := Ico (ico_frames thumbnail (tint (im_size opened) a))]>
           (<[icon_path := Raster (tint (im_size opened) a)]> (files w)).
Proof.
  intros Hread Hv Hw1 Hw2 Hrun Hfiles Hv1 Hv2.
  destruct (alpha_channel_valid opened Hv) as (r & g & b & a & _ & Ha & _ & Hrec).
  pose proof (main_cases thumbnail w) as Hcase. rewrite Hread, Hrec in Hcase.
  rewrite decide_False, decide_True in Hcase by assumption.
  assert (Hf : files w1
               = <[icon_path := Raster (tint (im_size opened) a)]> (files w)).
  { rewrite Hrun in Hcase. by injection Hcase as ->. }
  assert (Hreadv : read icon_path v = Ok (tint (im_size opened) a)).
  { by rewrite read_lookup, Hfiles, Hf, lookup_insert_eq. }
  eexists _, a.
  split; [exact (main_ok thumbnail v _ _ Hreadv (recolor_tint _ _) Hv1 Hv2)|].
  split; [exact Ha|]. cbn [files after]. rewrite Hfiles, Hf.
  by rewrite insert_insert_eq.
Qed.

End IconFile.

(** *** Concrete runs for the further properties *)

Lemma icon_path_locked : icon_path ∈ ({[ icon_path ]} : gset string).
Proof. by apply elem_of_singleton_2. Qed.

Lemma ico_path_locked : ico_path ∈ ({[ ico_path ]} : gset string).
Proof. by apply elem_of_singleton_2. Qed.

(** X1 on the 2x2 sample with the [.ico] path locked: the run fails,
    and the raster is written. *)
Lemma raster_is_written_whatever_follows_witness :
  exists a,
    alpha_channel sample_rgba = Some a
    /\ files (main crop_thumbnail (world_of sample_rgba {[ ico_path ]})).2
         !! icon_path
       = Some (Raster (tint (im_size sample_rgba) a)).
Proof.
  apply (raster_is_written_whatever_follows crop_thumbnail
           (world_of sample_rgba {[ ico_path ]}) sample_rgba).
  - apply read_world_of.
  - reflexivity.
  - apply icon_path_not_locked.
Defined.

(** X2 on the 2x2 sample with the icon path locked. *)
Lemma raster_failure_writes_nothing_witness :
  exists w',
    main crop_thumbnail (world_of sample_rgba {[ icon_path ]})
      = (Raise PermissionError, w')
    /\ files w' = files (world_of sample_rgba {[ icon_path ]})
    /\ stdout w' = stdout (world_of sample_rgba {[ icon_path ]})
    /\ calls w' = calls (world_of sample_rgba {[ icon_path ]})
                  ++ take 8 program_order
    /\ CallSave ico_path ∉ take 8 program_order.
Proof.
  apply (raster_failure_writes_nothing crop_thumbnail
           (world_of sample_rgba {[ icon_path ]}) sample_rgba).
  - apply read_world_of.
  - reflexivity.
  - apply icon_path_locked.
Defined.

(** X4 on the 2x2 sample with the [.ico] path locked. *)
Lemma locked_files_keep_their_content_witness :
  files (main crop_thumbnail (world_of sample_rgba {[ ico_path ]})).2 !! ico_path
  = files (world_of sample_rgba {[ ico_path ]}) !! ico_path.
Proof.
  apply (locked_files_keep_their_content crop_thumbnail
           (world_of sample_rgba {[ ico_path ]}) ico_path).
  apply ico_path_locked.
Defined.

(** X5 on the keyed RGB sample. *)
Lemma output_is_valid_rgba_witness :
  exists w' out,
    main crop_thumbnail (world_of keyed_rgb ∅) = (Ok tt, w')
    /\ read icon_path w' = Ok out
    /\ valid_image out = true
    /\ im_mode out = RGBA
    /\ im_size out = im_size keyed_rgb
    /\ im_transparency out = None.
Proof.
  apply (output_is_valid_rgba crop_thumbnail (world_of keyed_rgb ∅) keyed_rgb).
  - apply read_world_of.
  - reflexivity.
  - apply not_elem_of_empty.
  - apply not_elem_of_empty.
Defined.

(** X6 on the 2x2 sample. *)
Lemma output_pixels_witness :
  exists w' out,
    main crop_thumbnail (world_of sample_rgba ∅) = (Ok tt, w')
    /\ read icon_path w' = Ok out
    /\ forall x y,
         getpixel out x y
         = (fun px => [8; 203; 0]%Z ++ drop 3 px) <$> getpixel sample_rgba x y.
Proof.
  apply (output_pixels crop_thumbnail (world_of sample_rgba ∅) sample_rgba
           sample_rgba).
  - apply read_world_of.
  - reflexivity.
  - reflexivity.
  - apply not_elem_of_empty.
  - apply not_elem_of_empty.
Defined.

(** X7 on the keyed RGB sample and on the keyed greyscale sample. *)
Lemma colour_key_becomes_transparency_witness :
  (exists w' out,
     main crop_thumbnail (world_of keyed_rgb ∅) = (Ok tt, w')
     /\ read icon_path w' = Ok out
     /\ forall x y px,
          getpixel keyed_rgb x y = Some px ->
          getpixel out x y
          = Some [8; 203; 0; if decide (px = [255; 0; 0]) then 0 else 255]%Z)
  /\ exists w' out,
       main crop_thumbnail (world_of keyed_grey ∅) = (Ok tt, w')
       /\ read icon_path w' = Ok out
       /\ forall x y px,
            getpixel keyed_grey x y = Some px ->
            getpixel out x y
            = Some [8; 203; 0; if decide (px = [7]) then 0 else 255]%Z.
Proof.
  split.
  - apply (colour_key_becomes_transparency crop_thumbnail
             (world_of keyed_rgb ∅) keyed_rgb [255; 0; 0]%Z).
    + apply read_world_of.
    + reflexivity.
    + reflexivity.
    + apply not_elem_of_empty.
    + apply not_elem_of_empty.
  - apply (colour_key_becomes_transparency crop_thumbnail
             (world_of keyed_grey ∅) keyed_grey [7%Z]).
    + apply read_world_of.
    + reflexivity.
    + reflexivity.
    + apply not_elem_of_empty.
    + apply not_elem_of_empty.
Defined.

(** X8 on the greyscale sample. *)
Lemma no_alpha_no_key_becomes_opaque_witness :
  exists w' out,
    main crop_thumbnail (world_of sample_grey ∅) = (Ok tt, w')
    /\ read icon_path w' = Ok out
    /\ alpha_band out = Some (replicate (area sample_grey) 255%Z)
    /\ forall x y, x < width sample_grey -> y < height sample_grey ->
         getpixel out x y = Some [8; 203; 0; 255]%Z.
Proof.
  apply (no_alpha_no_key_becomes_opaque crop_thumbnail (world_of sample_grey ∅)
           sample_grey).
  - apply read_world_of.
  - reflexivity.
  - reflexivity.
  - reflexivity.
  - apply not_elem_of_empty.
  - apply not_elem_of_empty.
Defined.

(** X9 on the 16x16 sample, whose icon does load as the raster image. *)
Lemma ico_round_trip_needs_icon_size_witness :
  im_size sample_icon16 ∈ ico_sizes.
Proof.
  apply (ico_round_trip_needs_icon_size crop_thumbnail
           (world_of sample_icon16 ∅)
           (main crop_thumbnail (world_of sample_icon16 ∅)).2
           sample_icon16
           (tint (16, 16) (replicate 256 128%Z))).
  - apply crop_thumbnail_fits.
  - apply read_world_of.
  - vm_compute. reflexivity.
  - reflexivity.
  - reflexivity.
  - vm_compute. reflexivity.
  - vm_compute. reflexivity.
  - vm_compute. reflexivity.
Defined.

(** X11 on the 16x16 sample. *)
Lemma ico_is_never_larger_witness :
  width (tint (16, 16) (replicate 256 128%Z)) <= 256
  /\ height (tint (16, 16) (replicate 256 128%Z)) <= 256
  /\ width (tint (16, 16) (replicate 256 128%Z)) <= width sample_icon16
  /\ height (tint (16, 16) (replicate 256 128%Z)) <= height sample_icon16.
Proof.
  apply (ico_is_never_larger crop_thumbnail
           (world_of sample_icon16 ∅)
           (main crop_thumbnail (world_of sample_icon16 ∅)).2
           sample_icon16).
  - apply crop_thumbnail_fits.
  - apply read_world_of.
  - vm_compute. reflexivity.
  - vm_compute. reflexivity.
  - vm_compute. reflexivity.
Defined.

(** X12 on the 2x2 sample: the first run finds the [.ico] path locked,
    the second runs on the files it left, with nothing locked. *)
Lemma rerun_completes_after_ico_failure_witness :
  exists v' a,
    main crop_thumbnail
      (World (files (main crop_thumbnail
                       (world_of sample_rgba {[ ico_path ]})).2) ∅ [] [])
      = (Ok tt, v')
    /\ alpha_channel sample_rgba = Some a
    /\ files v'
       = <[ico_path := Ico (ico_frames crop_thumbnail
                              (tint (im_size sample_rgba) a))]>
           (<[icon_path := Raster (tint (im_size sample_rgba) a)]>
              (files (world_of sample_rgba {[ ico_path ]}))).
Proof.
  apply (rerun_completes_after_ico_failure crop_thumbnail
           (world_of sample_rgba {[ ico_path ]})
           (main crop_thumbnail (world_of sample_rgba {[ ico_path ]})).2
           (World (files (main crop_thumbnail
                            (world_of sample_rgba {[ ico_path ]})).2) ∅ [] [])
           sample_rgba).
  - apply read_world_of.
  - reflexivity.
  - apply icon_path_not_locked.
  - apply ico_path_locked.
  - vm_compute. reflexivity.
  - vm_compute. reflexivity.
  - apply not_elem_of_empty.
  - apply not_elem_of_empty.
Defined.
